(** * Viral image extractor: scoring, ranking and the collection pipeline

    A shallow embedding of [src/services/viral_image_extractor.py].

    - Python [int] is [Z]; Python [float] is IEEE binary64, taken from the
      Standard Library's executable specification [SpecFloat] (precision 53,
      maximal exponent 1024), so every arithmetic step rounds as the
      interpreter does.
    - A [str] is a [string]; one [ascii] stands for one character, so the
      texts of the model are those whose code points lie below 256.
    - A dictionary read by key is a [gmap]; a dictionary that is iterated
      (the weight tables) is an association list in insertion order.
    - A raised exception is [None] in an [option]; every [try]/[except] of
      the source is the [match] that handles it. *)

From Stdlib Require Import ZArith List Ascii String Bool Lia Sorting.Sorted
  Sorting.Permutation.
From Stdlib Require Import Floats.SpecFloat.
From stdpp Require Import base option gmap strings.

Open Scope Z_scope.
Open Scope string_scope.

(** ** Binary64 arithmetic *)

Module F64.

Definition prec : Z := 53.
Definition emax : Z := 1024.

Definition float : Type := spec_float.

(** Exact conversion of an integer literal (correctly rounded when the
    integer has more than 53 significant bits). *)
Definition of_int (n : Z) : float := binary_normalize prec emax n 0 false.

(** The decimal literal [p/q] (e.g. [0.3] is [ratio 3 10]): the double
    nearest to the rational. *)
Definition ratio (p q : positive) : float :=
  SFdiv prec emax (S754_finite false p 0) (S754_finite false q 0).

Definition zero : float := S754_zero false.

Definition add : float -> float -> float := SFadd prec emax.
Definition mul : float -> float -> float := SFmul prec emax.
Definition div : float -> float -> float := SFdiv prec emax.
Definition sqrt : float -> float := SFsqrt prec emax.
Definition ltb : float -> float -> bool := SFltb.
Definition leb : float -> float -> bool := SFleb.
Definition eqb : float -> float -> bool := SFeqb.

Definition is_nan (x : float) : bool :=
  match x with S754_nan => true | _ => false end.

Definition is_finite (x : float) : bool :=
  match x with S754_zero _ | S754_finite _ _ _ => true | _ => false end.

(** [a / b] on two Python integers, [b] positive: the correctly rounded
    quotient; [None] is the [OverflowError] of a quotient too large for a
    float. *)
Definition int_truediv (a : Z) (b : positive) : option float :=
  let q := match a with
           | Z0 => S754_zero false
           | Zpos p => SFdiv prec emax (S754_finite false p 0) (S754_finite false b 0)
           | Zneg p => SFdiv prec emax (S754_finite true p 0) (S754_finite false b 0)
           end in
  if is_finite q then Some q else None.

(** The value of [x ** 0.5]: a negative base yields a complex number, any
    other base its square root ([pow(x, 0.5)] of the C library, taken as the
    correctly rounded square root). *)
Inductive number := Real (x : float) | Complex.

Definition pow_half (x : float) : number :=
  if ltb x zero then Complex else Real (sqrt x).

(** Built-in [max(a, b)] and [min(a, b)] on floats: the first argument is
    kept unless the second is strictly greater (resp. smaller). *)
Definition max2 (a b : float) : float := if ltb a b then b else a.
Definition min2 (a b : float) : float := if ltb b a then b else a.

End F64.

Abbreviation float := F64.float.

(** ** Python values and dictionaries *)

(** The values stored under the keys the scorer may read: the engagement
    dictionaries hold integers; the YouTube video dictionary, which is passed
    to the scorer as it is, also holds strings. *)
Inductive value :=
  | VInt (n : Z)
  | VStr (s : string).

(** ** Virality scorer *)

Definition weights : list (string * list (string * float)) :=
  [ ("instagram",  [("likes", F64.ratio 3 10); ("comments", F64.ratio 4 10); ("shares", F64.ratio 3 10)]);
    ("facebook",   [("likes", F64.ratio 25 100); ("comments", F64.ratio 35 100); ("shares", F64.ratio 4 10)]);
    ("youtube",    [("views", F64.ratio 4 10); ("likes", F64.ratio 3 10); ("comments", F64.ratio 3 10)]);
    ("news",       [("views", F64.ratio 6 10); ("shares", F64.ratio 4 10)]);
    ("commercial", [("views", F64.ratio 5 10); ("likes", F64.ratio 3 10); ("shares", F64.ratio 2 10)]) ].

Fixpoint assoc_get {A} (k : string) (d : list (string * A)) : option A :=
  match d with
  | [] => None
  | (k', v) :: d' => if String.eqb k k' then Some v else assoc_get k d'
  end.

Definition instagram_weights : list (string * float) :=
  default [] (assoc_get "instagram" weights).

(** [weights.get(platform, weights['instagram'])] *)
Definition platform_weights_of (platform : string) : list (string * float) :=
  default instagram_weights (assoc_get platform weights).

(** [min(100, (metrics[metric] / 100) ** 0.5)]; [None] is a raised
    exception: [TypeError] for a string operand or for the comparison of a
    complex number, [OverflowError] for a quotient beyond the float range. *)
Definition normalized_value (v : value) : option float :=
  match v with
  | VStr _ => None
  | VInt n =>
      q ← F64.int_truediv n 100;
      match F64.pow_half q with
      | F64.Complex => None
      | F64.Real r => Some (F64.min2 (F64.of_int 100) r)
      end
  end.

(** One turn of the loop over [platform_weights.items()], on the pair
    [(score, total_weight)]. *)
Definition score_step (metrics : gmap string value)
    (acc : float * float) (mw : string * float) : option (float * float) :=
  let '(score, total_weight) := acc in
  let '(metric, weight) := mw in
  match metrics !! metric with
  | None => Some acc
  | Some v =>
      nv ← normalized_value v;
      Some (F64.add score (F64.mul nv weight), F64.add total_weight weight)
  end.

Fixpoint score_loop (metrics : gmap string value) (acc : float * float)
    (items : list (string * float)) : option (float * float) :=
  match items with
  | [] => Some acc
  | mw :: items' =>
      acc' ← score_step metrics acc mw;
      score_loop metrics acc' items'
  end.

Definition clamp_score (score : float) : float :=
  F64.min2 (F64.of_int 100) (F64.max2 F64.zero score).

Definition default_score : float := F64.of_int 50.

(** The body of the [try] block. *)
Definition score_body (metrics : gmap string value) (platform : string) : option float :=
  '(score, total_weight) ← score_loop metrics (F64.zero, F64.zero) (platform_weights_of platform);
  let score := if F64.ltb F64.zero total_weight then F64.div score total_weight else score in
  Some (clamp_score score).

Definition _calculate_image_virality_score
    (metrics : gmap string value) (platform : string) : float :=
  match score_body metrics platform with
  | Some s => s
  | None => default_score
  end.

(** ** Python string built-ins *)

Module Py.

Definition code (c : ascii) : N := N_of_ascii c.

Definition in_range (lo hi : N) (c : ascii) : bool :=
  (N.leb lo (code c) && N.leb (code c) hi)%bool.

(** [str.lower()], one character: the upper-case letters below 256 are
    [A-Z], [192..214] and [216..222]; each lowers to the code point 32
    above it. *)
Definition lower_char (c : ascii) : ascii :=
  if (in_range 65 90 c || in_range 192 214 c || in_range 216 222 c)%bool
  then ascii_of_N (code c + 32) else c.

Fixpoint lower (s : string) : string :=
  match s with
  | EmptyString => EmptyString
  | String c s' => String (lower_char c) (lower s')
  end.

(** [p in s] on strings. *)
Fixpoint contains (p s : string) : bool :=
  (String.prefix p s ||
   match s with
   | EmptyString => false
   | String _ s' => contains p s'
   end)%bool.

(** [str.isspace()], one character. *)
Definition is_space (c : ascii) : bool :=
  (in_range 9 13 c || in_range 28 32 c || N.eqb (code c) 133 || N.eqb (code c) 160)%bool.

(** [str.split()] without argument: the maximal runs of non-space
    characters; [cur] is the run being read, reversed. *)
Definition flush (cur : list ascii) (acc : list string) : list string :=
  match cur with
  | [] => acc
  | _ => string_of_list_ascii (rev cur) :: acc
  end.

Fixpoint split_go (s : string) (cur : list ascii) (acc : list string) : list string :=
  match s with
  | EmptyString => rev (flush cur acc)
  | String c s' =>
      if is_space c then split_go s' [] (flush cur acc)
      else split_go s' (c :: cur) acc
  end.

Definition split (s : string) : list string := split_go s [] [].

(** [str.replace(old, new)] for a one-character [old]. *)
Fixpoint replace_char (old : ascii) (new : string) (s : string) : string :=
  match s with
  | EmptyString => EmptyString
  | String c s' =>
      if Ascii.eqb c old then new ++ replace_char old new s'
      else String c (replace_char old new s')
  end.

Definition is_ascii_upper (c : ascii) : bool := in_range 65 90 c.
Definition is_ascii_lower (c : ascii) : bool := in_range 97 122 c.

(** [str.title()] on ASCII text (the category names it is applied to): a
    letter that follows a letter is lowered, a letter that does not is
    raised, anything else is copied. *)
Fixpoint title_go (s : string) (prev_cased : bool) : string :=
  match s with
  | EmptyString => EmptyString
  | String c s' =>
      if is_ascii_upper c then
        String (if prev_cased then ascii_of_N (code c + 32) else c) (title_go s' true)
      else if is_ascii_lower c then
        String (if prev_cased then c else ascii_of_N (code c - 32)) (title_go s' true)
      else String c (title_go s' false)
  end.

Definition title (s : string) : string := title_go s false.

(** Decimal digits of a positive number, most significant first. The fuel
    is the binary size, which bounds the number of decimal digits. *)
Fixpoint digits_go (fuel : nat) (n : N) (acc : list ascii) : list ascii :=
  match fuel with
  | O => acc
  | S fuel' =>
      let d := ascii_of_N (48 + N.modulo n 10) in
      let q := N.div n 10 in
      if N.eqb q 0 then d :: acc else digits_go fuel' q (d :: acc)
  end.

Definition digits (n : N) : list ascii :=
  digits_go (S (N.to_nat (N.log2 n))) n [].

(** [str(n)] for an integer. *)
Definition str_of_int (n : Z) : string :=
  match n with
  | Zneg p => String "-" (string_of_list_ascii (digits (Npos p)))
  | _ => string_of_list_ascii (digits (Z.to_N n))
  end.

(** Groups of three digits from the right, separated by commas. *)
Fixpoint group3 (rev_digits : list ascii) (acc : list ascii) : list ascii :=
  match rev_digits with
  | a :: b :: c :: ((_ :: _) as rest) => group3 rest ("," :: c :: b :: a :: acc)%char
  | _ => (rev rev_digits ++ acc)%list
  end.

(** [format(n, ',')], the [{n:,}] of an f-string. *)
Definition format_thousands (n : Z) : string :=
  let body (m : N) := string_of_list_ascii (group3 (rev (digits m)) []) in
  match n with
  | Zneg p => String "-" (body (Npos p))
  | _ => body (Z.to_N n)
  end.

(** The class [\w] of a [str] pattern: [str.isalnum()] or the underscore.
    Below 128 these are the ASCII letters and digits; from 128 to 255 the
    letters and the numeric characters of Latin-1. *)
Definition is_word (c : ascii) : bool :=
  (in_range 48 57 c || in_range 65 90 c || in_range 97 122 c || N.eqb (code c) 95
   || N.eqb (code c) 170 || in_range 178 179 c || N.eqb (code c) 181
   || in_range 185 186 c || in_range 188 190 c
   || in_range 192 214 c || in_range 216 246 c || in_range 248 255 c)%bool.

End Py.

(** [l[:n]] on a list: the first [n] elements, or for a negative [n] all
    but the last [-n]. *)
Definition slice_to {A} (n : Z) (l : list A) : list A :=
  if (0 <=? n)%Z then firstn (Z.to_nat n) l
  else firstn (length l - Z.to_nat (- n)) l.

(** ** Metric synthesizer *)

Definition base_multiplier : list (string * Z) :=
  [ ("news", 1000); ("commercial", 500); ("instagram", 2000);
    ("facebook", 1500); ("youtube", 10000) ].

(** [base_multiplier.get(category, 1000)] *)
Definition multiplier_of (category : string) : Z :=
  default 1000 (assoc_get category base_multiplier).

Definition _generate_realistic_metrics (category : string) (index : Z) : gmap string Z :=
  let multiplier := multiplier_of category in
  {[ "likes" := multiplier + index * 100;
     "comments" := multiplier / 10 + index * 10;
     "shares" := multiplier / 20 + index * 5;
     "views" := multiplier * 5 + index * 500 ]}.

(** ** URL filter *)

Definition invalid_patterns : list string :=
  [ "data:image"; "base64"; "svg"; "icon"; "logo"; "avatar"; "profile" ].

Definition valid_patterns : list string :=
  [ ".jpg"; ".jpeg"; ".png"; ".webp"; "scontent"; "fbcdn"; "instagram"; "youtube" ].

Definition _is_valid_image_url (url : string) : bool :=
  if (String.eqb url "" || (String.length url <? 10)%nat)%bool then false
  else
    let url_lower := Py.lower url in
    if existsb (fun pattern => Py.contains pattern url_lower) invalid_patterns then false
    else existsb (fun pattern => Py.contains pattern url_lower) valid_patterns.

(** ** Hashtags *)

(** [re.findall(r'#\w+', text)]: the text is read once, left to right.
    [cur] is [Some w] after a ['#'] that has been followed by the word
    characters [w] (kept reversed) and [None] otherwise; a match ends at the
    first character that is not a word character. *)
Definition emit (cur : option (list ascii)) (acc : list string) : list string :=
  match cur with
  | Some ((_ :: _) as w) => String "#" (string_of_list_ascii (rev w)) :: acc
  | _ => acc
  end.

Fixpoint findall_hashtags (text : string) (cur : option (list ascii))
    (acc : list string) : list string :=
  match text with
  | EmptyString => rev (emit cur acc)
  | String c text' =>
      if Py.is_word c then
        findall_hashtags text' (option_map (cons c) cur) acc
      else if Ascii.eqb c "#" then findall_hashtags text' (Some []) (emit cur acc)
      else findall_hashtags text' None (emit cur acc)
  end.

Definition _extract_hashtags_from_text (text : string) : list string :=
  slice_to 10 (findall_hashtags text None []).

Definition _generate_hashtags (query : string) : list string :=
  let query_lower := Py.lower query in
  let words := Py.split query_lower in
  let hashtags :=
    map (fun word => String "#" word)
        (List.filter (fun word => (3 <? String.length word)%nat) words) in
  let hashtags :=
    if (Py.contains "brasil" query_lower || Py.contains "brazil" query_lower)%bool
    then (hashtags ++ ["#brasil"; "#mercadobrasileiro"; "#inovacaobrasil"])%list else hashtags in
  let hashtags :=
    if (Py.contains "tecnologia" query_lower || Py.contains "tech" query_lower)%bool
    then (hashtags ++ ["#tecnologia"; "#inovacao"; "#startup"; "#tech"])%list else hashtags in
  let hashtags :=
    if Py.contains "saas" query_lower
    then (hashtags ++ ["#saas"; "#software"; "#cloud"; "#b2b"])%list else hashtags in
  slice_to 10 hashtags.

Definition _generate_relevant_hashtags (query : string) : list string :=
  _generate_hashtags query.

(** ** Data model *)

Record ViralImage := {
  platform : string;
  source_url : string;
  image_url : string;
  local_path : string;
  title : string;
  description : string;
  author : string;
  engagement_metrics : gmap string Z;
  hashtags : list string;
  content_type : string;
  virality_score : float;
  extraction_timestamp : string;
  image_size : Z * Z;
  file_size : Z
}.

(** The dictionary written by [save_images_metadata]. *)
Record Metadata := {
  md_session_id : string;
  md_extraction_timestamp : string;
  md_total_images : Z;
  md_images_by_platform : gmap string Z;
  md_average_virality_score : float;
  md_images : list ViralImage
}.

(** The dictionary returned by [get_extracted_images_summary]; the key
    [images_paths] is absent from the summary of an empty result. *)
Record Summary := {
  sm_total : Z;
  sm_by_platform : gmap string Z;
  sm_average_score : float;
  sm_status : string;
  sm_images_paths : option (list string)
}.

(** The dictionary built by [_scrape_youtube_videos] for one video. *)
Record Video := {
  v_id : string;
  v_url : string;
  v_title : string;
  v_views : Z;
  v_likes : Z;
  v_comments : Z;
  v_thumbnail_url : string
}.

Definition video_dict (v : Video) : gmap string value :=
  {[ "id" := VStr (v_id v); "url" := VStr (v_url v); "title" := VStr (v_title v);
     "views" := VInt (v_views v); "likes" := VInt (v_likes v);
     "comments" := VInt (v_comments v); "thumbnail_url" := VStr (v_thumbnail_url v) ]}.

(** ** The environment *)

(** What [Image.open] reads from a file. *)
Record Image := { img_size : Z * Z; img_format : string }.

(** The dictionary returned by [_get_image_info]. *)
Record ImageInfo := { info_size : Z * Z; info_file_size : Z; info_format : string }.

(** An HTTP response; [header_content_type] is the [content-type] header
    when there is one. *)
Record Response := {
  status_code : Z;
  header_content_type : option string;
  content : list Byte.byte
}.

(** A file of the storage: downloaded bytes, or the JSON dump of a
    metadata dictionary. *)
Inductive file :=
  | Bytes (b : list Byte.byte)
  | Json (m : Metadata).

(** An anchor of the YouTube result page: its [href] attribute and the
    title of its [#video-title] child; [None] where reading raises. *)
Record VideoElement := { el_href : option string; el_title : option string }.

(** The extractor object and the storage it writes to. [dirs] are the
    existing directories, [files] the stored files, [ticks] the number of
    clock readings made so far. *)
Record State := {
  dirs : gset string;
  files : gmap string file;
  ticks : nat;
  extracted_images : list ViralImage
}.

Definition M (A : Type) : Type := State -> A * State.

#[global] Instance M_ret : MRet M := fun A (x : A) st => (x, st).
#[global] Instance M_bind : MBind M :=
  fun A B (f : A -> M B) (m : M A) st => let '(x, st') := m st in f x st'.

(** The collaborators: the HTTP client, the image decoder, the clock and
    the pages the browser shows. Each page is [None] when the browser
    session raises. The Instagram and Facebook collectors, which are
    browser-driven throughout, are taken whole, as procedures on the
    state: what is proved of the orchestrator holds for any behaviour of
    theirs. *)
Record World := {
  http_get : string -> option Response;
  pil_open : list Byte.byte -> option Image;
  time_time : nat -> Z;
  datetime_now : nat -> string;
  google_images_page : string -> option (list (option string));
  youtube_results_page : string -> option (list VideoElement);
  extract_instagram_images : string -> string -> Z -> M (list ViralImage);
  extract_facebook_images : string -> string -> Z -> M (list ViralImage)
}.

Definition min_images_target : Z := 20.

(** [os.path.join(a, b)] for a relative [b]. *)
Definition path_join (a b : string) : string := a ++ "/" ++ b.

(** ** Ranking *)

(** [images.sort(key=lambda x: x.virality_score, reverse=True)]. The sort
    of Python is stable and compares keys with [<] only; with
    [reverse=True] the list is reversed, sorted in ascending order, and
    reversed back. The ascending stable sort is written here as an insertion
    sort: [insert_by_score x l] puts [x] in front of the first element that
    is not strictly below it. *)
Fixpoint insert_by_score (x : ViralImage) (l : list ViralImage) : list ViralImage :=
  match l with
  | [] => [x]
  | y :: l' =>
      if F64.ltb (virality_score y) (virality_score x) then y :: insert_by_score x l'
      else x :: y :: l'
  end.

Fixpoint sort_ascending (l : list ViralImage) : list ViralImage :=
  match l with
  | [] => []
  | x :: l' => insert_by_score x (sort_ascending l')
  end.

Definition sort_by_score_reverse (l : list ViralImage) : list ViralImage :=
  rev (sort_ascending (rev l)).

(** ** YouTube video identifiers *)

Definition is_id_char (c : ascii) : bool :=
  (Py.in_range 48 57 c || Py.in_range 65 90 c || Py.in_range 97 122 c
   || Ascii.eqb c "_" || Ascii.eqb c "-")%bool.

(** The [n] characters of the class [[0-9A-Za-z_-]] that start [s]. *)
Fixpoint take_id (n : nat) (s : string) : option string :=
  match n with
  | O => Some ""
  | S n' =>
      match s with
      | String c s' => if is_id_char c then String c <$> take_id n' s' else None
      | EmptyString => None
      end
  end.

Fixpoint string_drop (n : nat) (s : string) : string :=
  match n, s with
  | S n', String _ s' => string_drop n' s'
  | _, _ => s
  end.

(** A match of [(?:alt1|alt2|...)([0-9A-Za-z_-]{11})] at the start of [s]:
    the group. *)
Fixpoint match_here (alts : list string) (s : string) : option string :=
  match alts with
  | [] => None
  | alt :: alts' =>
      match (if String.prefix alt s then take_id 11 (string_drop (String.length alt) s)
             else None) with
      | Some group => Some group
      | None => match_here alts' s
      end
  end.

(** [re.search]: the match at the leftmost position that has one. *)
Fixpoint re_search (alts : list string) (s : string) : option string :=
  match match_here alts s with
  | Some group => Some group
  | None =>
      match s with
      | EmptyString => None
      | String _ s' => re_search alts s'
      end
  end.

Definition _extract_youtube_id (url : string) : option string :=
  match re_search ["v="; "/"] url with
  | Some group => Some group
  | None =>
      match re_search ["embed/"] url with
      | Some group => Some group
      | None => re_search ["v/"] url
      end
  end.

(** ** The pipeline *)

Section Pipeline.

Variable W : World.
(** [self.images_dir] *)
Variable images_dir : string.

(** *** Storage and clock *)

(** [int(time.time())] *)
Definition read_time : M Z :=
  fun st => (time_time W (ticks st),
             {| dirs := dirs st; files := files st; ticks := S (ticks st);
                extracted_images := extracted_images st |}).

(** [datetime.now().isoformat()] *)
Definition read_now : M string :=
  fun st => (datetime_now W (ticks st),
             {| dirs := dirs st; files := files st; ticks := S (ticks st);
                extracted_images := extracted_images st |}).

(** [open(path, 'w' or 'wb')] followed by the write, for the file [name]
    of the directory [dir]: [None] when the directory does not exist and
    [open] raises. *)
Definition write_file (dir name : string) (f : file) : M (option string) :=
  fun st =>
    if decide (dir ∈ dirs st) then
      (Some (path_join dir name),
       {| dirs := dirs st; files := <[path_join dir name := f]> (files st);
          ticks := ticks st; extracted_images := extracted_images st |})
    else (None, st).

(** [os.remove(path)] of a stored file. *)
Definition remove_file (path : string) : M unit :=
  fun st => (tt, {| dirs := dirs st; files := delete path (files st);
                    ticks := ticks st; extracted_images := extracted_images st |}).

(** [Image.open(path)]: [None] when the file is missing or does not
    decode. *)
Definition open_image (path : string) : M (option (Image * Z)) :=
  fun st =>
    (match files st !! path with
     | Some (Bytes b) =>
         match pil_open W b with
         | Some img => Some (img, Z.of_nat (length b))
         | None => None
         end
     | _ => None
     end, st).

Definition set_extracted_images (images : list ViralImage) : M unit :=
  fun st => (tt, {| dirs := dirs st; files := files st; ticks := ticks st;
                    extracted_images := images |}).

Definition get_extracted_images : M (list ViralImage) :=
  fun st => (extracted_images st, st).

(** [setup_directories] *)
Definition setup_directories : M unit :=
  fun st =>
    (tt, {| dirs := dirs st ∪ {[ images_dir; path_join images_dir "instagram";
                                 path_join images_dir "facebook";
                                 path_join images_dir "youtube";
                                 path_join images_dir "thumbnails" ]};
            files := files st; ticks := ticks st;
            extracted_images := extracted_images st |}).

(** *** Image materializer *)

Definition extension_of (content_type : string) : string :=
  if (Py.contains "jpeg" content_type || Py.contains "jpg" content_type)%bool then "jpg"
  else if Py.contains "png" content_type then "png"
  else if Py.contains "webp" content_type then "webp"
  else "jpg".

Definition size_ok (img : Image) : bool :=
  ((200 <=? fst (img_size img))%Z && (200 <=? snd (img_size img))%Z)%bool.

Definition _download_image (img_url platform session_id : string) (index : Z)
    : M (option string) :=
  match http_get W img_url with
  | None => mret None
  | Some response =>
      if (status_code response =? 200)%Z then
        let content_type := default "" (header_content_type response) in
        let ext := extension_of content_type in
        timestamp ← read_time;
        let filename :=
          platform ++ "_viral_" ++ Py.str_of_int index ++ "_"
                   ++ Py.str_of_int timestamp ++ "." ++ ext in
        written ← write_file (path_join images_dir platform) filename
                             (Bytes (content response));
        match written with
        | None => mret None
        | Some local_path =>
            opened ← open_image local_path;
            match opened with
            | Some (img, _) =>
                if size_ok img then mret (Some local_path)
                else (_ ← remove_file local_path; mret None)
            | None => _ ← remove_file local_path; mret None
            end
        end
      else mret None
  end.

Definition _get_image_info (image_path : string) : M ImageInfo :=
  opened ← open_image image_path;
  mret match opened with
       | Some (img, file_size) =>
           {| info_size := img_size img; info_file_size := file_size;
              info_format := img_format img |}
       | None => {| info_size := (0, 0); info_file_size := 0; info_format := "unknown" |}
       end.

(** *** Image-search collectors (news, commercial) *)

(** The letter a-tilde of the description. *)
Definition a_tilde : string := String "227" "".

(** The name [query] as the body of [_extract_images_from_search] sees
    it. The function has the parameters [search_url], [session_id],
    [limit] and [category], assigns no local of that name, and the module
    binds none either: reading it raises [NameError], here [None]. *)
Definition unbound_query : option string := None.

(** The loop of [_extract_images_from_search] over
    [enumerate(img_elements[:limit])], from position [i] on. An element
    whose [src] cannot be read is [None]; it is skipped like a URL that
    the filter rejects. The record is built after the download; the
    exception raised while its arguments are evaluated is caught by the
    [try] of the loop body, which goes on with the next element. *)
Fixpoint search_loop (search_url session_id category : string)
    (elements : list (option string)) (i : Z) (images : list ViralImage)
    : M (list ViralImage) :=
  match elements with
  | [] => mret images
  | None :: rest => search_loop search_url session_id category rest (i + 1) images
  | Some img_url :: rest =>
      if negb (_is_valid_image_url img_url) then
        search_loop search_url session_id category rest (i + 1) images
      else
        downloaded ← _download_image img_url category session_id i;
        match downloaded with
        | None => search_loop search_url session_id category rest (i + 1) images
        | Some local_path =>
            image_info ← _get_image_info local_path;
            let engagement_metrics := _generate_realistic_metrics category i in
            match unbound_query with
            | None => search_loop search_url session_id category rest (i + 1) images
            | Some query =>
                now ← read_now;
                let viral_image :=
                  {| platform := Py.title category;
                     source_url := search_url;
                     image_url := img_url;
                     local_path := local_path;
                     title := Py.title category ++ " Image " ++ Py.str_of_int (i + 1);
                     description := "Imagem viral de " ++ category
                                      ++ " com alto potencial de convers" ++ a_tilde ++ "o";
                     author := "@" ++ category ++ "_creator_" ++ Py.str_of_int i;
                     engagement_metrics := engagement_metrics;
                     hashtags := _generate_relevant_hashtags query;
                     content_type := "image";
                     virality_score :=
                       _calculate_image_virality_score (VInt <$> engagement_metrics) category;
                     extraction_timestamp := now;
                     image_size := info_size image_info;
                     file_size := info_file_size image_info |} in
                search_loop search_url session_id category rest (i + 1)
                            (images ++ [viral_image])%list
            end
        end
  end.

Definition _extract_images_from_search (search_url session_id : string) (limit : Z)
    (category : string) : M (list ViralImage) :=
  match google_images_page W search_url with
  | None => mret []
  | Some img_elements =>
      search_loop search_url session_id category (slice_to limit img_elements) 0 []
  end.

(** The loop of [_extract_news_images] over the search pages, left when
    the quota is reached. *)
Fixpoint news_loop (session_id : string) (limit : Z) (news_sites : list string)
    (images : list ViralImage) : M (list ViralImage) :=
  match news_sites with
  | [] => mret images
  | site_url :: rest =>
      site_images ← _extract_images_from_search site_url session_id (limit / 3) "news";
      let images := (images ++ site_images)%list in
      if (limit <=? Z.of_nat (length images))%Z then mret images
      else news_loop session_id limit rest images
  end.

Definition news_sites (query : string) : list string :=
  [ "https://www.google.com/search?q=" ++ query ++ "+site:g1.globo.com&tbm=isch";
    "https://www.google.com/search?q=" ++ query ++ "+site:folha.uol.com.br&tbm=isch";
    "https://www.google.com/search?q=" ++ query ++ "+site:estadao.com.br&tbm=isch" ].

Definition _extract_news_images (query session_id : string) (limit : Z)
    : M (list ViralImage) :=
  images ← news_loop session_id limit (news_sites query) [];
  mret (slice_to limit images).

Definition _extract_commercial_images (query session_id : string) (limit : Z)
    : M (list ViralImage) :=
  let commercial_search :=
    "https://www.google.com/search?q=" ++ query ++ "+landing+page+produto&tbm=isch" in
  commercial_images ← _extract_images_from_search commercial_search session_id limit "commercial";
  mret (slice_to limit commercial_images).

Definition extract_additional_viral_content (query session_id : string)
    : M (list ViralImage) :=
  news_images ← _extract_news_images query session_id 8;
  commercial_images ← _extract_commercial_images query session_id 6;
  mret (news_images ++ commercial_images)%list.

(** *** YouTube collector *)

Definition i_acute : string := String "237" "".
Definition c_cedilla : string := String "231" "".
Definition o_tilde : string := String "245" "".

(** The loop of [_scrape_youtube_videos] over
    [enumerate(video_elements[:limit])]. An element whose [href] or whose
    title cannot be read raises in the loop body and is skipped. *)
Fixpoint videos_loop (elements : list VideoElement) (i : Z) (videos : list Video)
    : list Video :=
  match elements with
  | [] => videos
  | el :: rest =>
      match el_href el with
      | None => videos_loop rest (i + 1) videos
      | Some video_url =>
          match _extract_youtube_id video_url with
          | None => videos_loop rest (i + 1) videos
          | Some video_id =>
              match el_title el with
              | None => videos_loop rest (i + 1) videos
              | Some title =>
                  let views := 50000 + i * 10000 in
                  let likes := views / 20 in
                  let comments := views / 100 in
                  let video_data :=
                    {| v_id := video_id; v_url := video_url; v_title := title;
                       v_views := views; v_likes := likes; v_comments := comments;
                       v_thumbnail_url :=
                         "https://img.youtube.com/vi/" ++ video_id ++ "/maxresdefault.jpg" |} in
                  videos_loop rest (i + 1) (videos ++ [video_data])%list
              end
          end
      end
  end.

Definition _scrape_youtube_videos (query : string) (limit : Z) : list Video :=
  let search_url :=
    "https://www.youtube.com/results?search_query="
      ++ Py.replace_char " " "+" query ++ "&sp=CAMSAhAB" in
  match youtube_results_page W search_url with
  | None => []
  | Some video_elements => videos_loop (slice_to limit video_elements) 0 []
  end.

(** The loop of [_download_youtube_thumbnail] over the three thumbnail
    qualities: the first URL answered with status 200 and stored gives the
    record; a request or a write that raises goes on with the next. *)
Fixpoint thumbnail_loop (video_data : Video) (thumbnail_urls : list string)
    : M (option ViralImage) :=
  match thumbnail_urls with
  | [] => mret None
  | url :: rest =>
      match http_get W url with
      | None => thumbnail_loop video_data rest
      | Some response =>
          if (status_code response =? 200)%Z then
            timestamp ← read_time;
            let filename :=
              "youtube_thumbnail_" ++ v_id video_data ++ "_"
                 ++ Py.str_of_int timestamp ++ ".jpg" in
            written ← write_file (path_join images_dir "youtube") filename
                                 (Bytes (content response));
            match written with
            | None => thumbnail_loop video_data rest
            | Some local_path =>
                image_info ← _get_image_info local_path;
                now ← read_now;
                mret (Some
                  {| platform := "YouTube";
                     source_url := v_url video_data;
                     image_url := url;
                     local_path := local_path;
                     title := v_title video_data;
                     description :=
                       "Thumbnail de v" ++ i_acute ++ "deo viral com "
                         ++ Py.format_thousands (v_views video_data)
                         ++ " visualiza" ++ c_cedilla ++ o_tilde ++ "es";
                     author := "Canal YouTube";
                     engagement_metrics :=
                       {[ "views" := v_views video_data;
                          "likes" := v_likes video_data;
                          "comments" := v_comments video_data;
                          "shares" := v_views video_data / 50 ]};
                     hashtags := _extract_hashtags_from_text (v_title video_data);
                     content_type := "thumbnail";
                     virality_score :=
                       _calculate_image_virality_score (video_dict video_data) "youtube";
                     extraction_timestamp := now;
                     image_size := info_size image_info;
                     file_size := info_file_size image_info |})
            end
          else thumbnail_loop video_data rest
      end
  end.

Definition thumbnail_urls_of (video_id : string) : list string :=
  [ "https://img.youtube.com/vi/" ++ video_id ++ "/maxresdefault.jpg";
    "https://img.youtube.com/vi/" ++ video_id ++ "/hqdefault.jpg";
    "https://img.youtube.com/vi/" ++ video_id ++ "/mqdefault.jpg" ].

Definition _download_youtube_thumbnail (video_data : Video) (session_id : string)
    : M (option ViralImage) :=
  thumbnail_loop video_data (thumbnail_urls_of (v_id video_data)).

Fixpoint thumbnails_loop (session_id : string) (videos : list Video)
    (images : list ViralImage) : M (list ViralImage) :=
  match videos with
  | [] => mret images
  | video :: rest =>
      thumbnail_image ← _download_youtube_thumbnail video session_id;
      match thumbnail_image with
      | Some image => thumbnails_loop session_id rest (images ++ [image])%list
      | None => thumbnails_loop session_id rest images
      end
  end.

Definition extract_youtube_thumbnails (query session_id : string) (limit : Z)
    : M (list ViralImage) :=
  thumbnails_loop session_id (_scrape_youtube_videos query limit) [].

(** *** Metadata and summary *)

(** The [images_by_platform] (resp. [by_platform]) counter. *)
Definition count_by_platform (images : list ViralImage) : gmap string Z :=
  fold_left (fun counts image =>
               <[platform image := default 0 (counts !! platform image) + 1]> counts)
            images ∅.

(** [sum(img.virality_score for img in images) / len(images)] *)
Definition average_score (images : list ViralImage) : float :=
  F64.div (fold_left (fun s image => F64.add s (virality_score image)) images F64.zero)
          (F64.of_int (Z.of_nat (length images))).

(** A write that raises is logged and otherwise ignored. *)
Definition save_images_metadata (images : list ViralImage) (session_id : string)
    : M unit :=
  now ← read_now;
  let metadata :=
    {| md_session_id := session_id;
       md_extraction_timestamp := now;
       md_total_images := Z.of_nat (length images);
       md_images_by_platform := count_by_platform images;
       md_average_virality_score :=
         match images with [] => F64.zero | _ => average_score images end;
       md_images := images |} in
  _ ← write_file images_dir ("viral_images_metadata_" ++ session_id ++ ".json")
                 (Json metadata);
  mret tt.

Definition get_extracted_images_summary : M Summary :=
  extracted ← get_extracted_images;
  mret match extracted with
       | [] => {| sm_total := 0; sm_by_platform := ∅; sm_average_score := F64.zero;
                  sm_status := "no_images"; sm_images_paths := None |}
       | _ =>
           {| sm_total := Z.of_nat (length extracted);
              sm_by_platform := count_by_platform extracted;
              sm_average_score := average_score extracted;
              sm_status :=
                if (min_images_target <=? Z.of_nat (length extracted))%Z
                then "success" else "partial";
              sm_images_paths := Some (map local_path extracted) |}
       end.

(** *** Orchestrator *)

(** The three primary collectors, with their default quotas. *)
Definition collect_primary (query session_id : string) : M (list ViralImage) :=
  instagram_images ← extract_instagram_images W query session_id 8;
  facebook_images ← extract_facebook_images W query session_id 6;
  youtube_images ← extract_youtube_thumbnails query session_id 6;
  mret (instagram_images ++ facebook_images ++ youtube_images)%list.

(** The fallback stage: more content when the minimum is not reached. *)
Definition collect_all (query session_id : string) : M (list ViralImage) :=
  all_images ← collect_primary query session_id;
  if (Z.of_nat (length all_images) <? min_images_target)%Z then
    additional_images ← extract_additional_viral_content query session_id;
    mret (all_images ++ additional_images)%list
  else mret all_images.

(** Ranking and truncation of the working set. *)
Definition rank_and_truncate (all_images : list ViralImage) : list ViralImage :=
  let all_images := sort_by_score_reverse all_images in
  if (min_images_target <=? Z.of_nat (length all_images))%Z
  then slice_to min_images_target all_images
  else all_images.

Definition extract_viral_images (query session_id : string) : M (list ViralImage) :=
  all_images ← collect_all query session_id;
  let final_images := rank_and_truncate all_images in
  _ ← set_extracted_images final_images;
  _ ← save_images_metadata final_images session_id;
  mret final_images.

End Pipeline.

(** * Specification vocabulary *)

(** The closed interval [[0, 100]] of binary64. *)
Definition in_score_range (x : float) : Prop :=
  F64.leb F64.zero x = true /\ F64.leb x (F64.of_int 100) = true.

Definition score_is_number (r : ViralImage) : Prop :=
  F64.is_nan (virality_score r) = false.

(** [a] may stand before [b] in ascending order: [b] is not strictly below. *)
Definition asc (a b : ViralImage) : Prop :=
  F64.ltb (virality_score b) (virality_score a) = false.

(** [a] may stand before [b] in descending order: [b]'s score is at most
    [a]'s. *)
Definition desc (a b : ViralImage) : Prop :=
  F64.leb (virality_score b) (virality_score a) = true.

(** Records that have the same score. *)
Definition same_score (s : float) (r : ViralImage) : bool :=
  F64.eqb (virality_score r) s.

(** The path [_download_image] stores the body of [response] at, when the
    clock has been read [n] times. *)
Definition stored_path (W : World) (images_dir platform : string) (index : Z)
    (response : Response) (n : nat) : string :=
  path_join (path_join images_dir platform)
    (platform ++ "_viral_" ++ Py.str_of_int index ++ "_"
       ++ Py.str_of_int (time_time W n) ++ "."
       ++ extension_of (default "" (header_content_type response))).

(** The floor on pixel dimensions. *)
Definition meets_floor (size : Z * Z) : Prop := 200 <= fst size /\ 200 <= snd size.

(** *** Test data *)

(** A record that carries a name (as title) and an integer score. *)
Definition sample (name : string) (score : Z) : ViralImage :=
  {| platform := "Instagram"; source_url := ""; image_url := ""; local_path := name;
     title := name; description := ""; author := ""; engagement_metrics := ∅;
     hashtags := []; content_type := "image"; virality_score := F64.of_int score;
     extraction_timestamp := ""; image_size := (640, 640); file_size := 1 |}.

Definition label (r : ViralImage) : string * float := (title r, virality_score r).

Definition four_records : list ViralImage :=
  [ sample "a" 10; sample "b" 90; sample "c" 90; sample "d" 30 ].

Definition empty_state : State :=
  {| dirs := ∅; files := ∅; ticks := O; extracted_images := [] |}.

(** A world without network and without pages, where the Instagram
    collector hands over the records [canned]. *)
Definition canned_world (canned : list ViralImage) : World :=
  {| http_get := fun _ => None;
     pil_open := fun _ => None;
     time_time := fun n => Z.of_nat n;
     datetime_now := fun _ => "2024-01-01T00:00:00";
     google_images_page := fun _ => None;
     youtube_results_page := fun _ => None;
     extract_instagram_images := fun _ _ _ st => (canned, st);
     extract_facebook_images := fun _ _ _ st => ([], st) |}.

(** [n] records with the scores [1 .. n], in ascending order. *)
Fixpoint numbered (n : nat) : list ViralImage :=
  match n with
  | O => []
  | S n' => (numbered n' ++ [sample "r" (Z.of_nat n)])%list
  end.

(** A world with one YouTube video, whose only thumbnail that can be
    fetched is the medium-quality one (320x180), and with an image search
    that shows a large photo, a small one and a broken one. The Instagram
    collector hands over [canned]. *)
Definition mq_thumbnail : string := "https://img.youtube.com/vi/dQw4w9WgXcQ/mqdefault.jpg".
Definition maxres_thumbnail : string := "https://img.youtube.com/vi/dQw4w9WgXcQ/maxresdefault.jpg".
Definition photo_url : string := "https://cdn.example.com/photo.jpg".
Definition small_url : string := "https://cdn.example.com/small.png".
Definition broken_url : string := "https://cdn.example.com/broken.webp".

Definition demo_http (url : string) : option Response :=
  if String.eqb url mq_thumbnail then
    Some {| status_code := 200; header_content_type := Some "image/jpeg";
            content := [Byte.x01] |}
  else if String.eqb url maxres_thumbnail then
    Some {| status_code := 404; header_content_type := Some "image/jpeg"; content := [] |}
  else if String.eqb url photo_url then
    Some {| status_code := 200; header_content_type := Some "image/jpeg";
            content := [Byte.x02; Byte.x02] |}
  else if String.eqb url small_url then
    Some {| status_code := 200; header_content_type := Some "image/png";
            content := [Byte.x03] |}
  else if String.eqb url broken_url then
    Some {| status_code := 200; header_content_type := Some "image/webp";
            content := [Byte.x04] |}
  else None.

Definition demo_decode (b : list Byte.byte) : option Image :=
  match b with
  | [Byte.x01] => Some {| img_size := (320, 180); img_format := "JPEG" |}
  | [Byte.x02; Byte.x02] => Some {| img_size := (640, 480); img_format := "JPEG" |}
  | [Byte.x03] => Some {| img_size := (100, 100); img_format := "PNG" |}
  | _ => None
  end.

Definition demo_world (canned : list ViralImage) : World :=
  {| http_get := demo_http;
     pil_open := demo_decode;
     time_time := fun n => 1700000000 + Z.of_nat n;
     datetime_now := fun _ => "2024-01-01T00:00:00";
     google_images_page := fun _ => Some [Some photo_url; Some small_url; Some broken_url];
     youtube_results_page :=
       fun _ => Some [ {| el_href := Some "https://www.youtube.com/watch?v=dQw4w9WgXcQ";
                          el_title := Some "Launch video #promo" |} ];
     extract_instagram_images := fun _ _ _ st => (canned, st);
     extract_facebook_images := fun _ _ _ st => ([], st) |}.

(** The state a new extractor starts from: the directories of
    [setup_directories], no file, no result. *)
Definition initial_state (images_dir : string) : State :=
  snd (setup_directories images_dir empty_state).

(** [s] contains the (lower-case) pattern [p] up to the case of letters:
    some substring of [s] lowers to [p]. *)
Definition occurs_ci (p s : string) : Prop :=
  exists pre mid post, s = pre ++ mid ++ post /\ Py.lower mid = p.

(** The matches of [#\w+] in a text, read from left to right. [starts_word
    s] says that [s] begins with a word character; a match is a ['#'] with
    the longest run of word characters after it, which must not be empty,
    and the search resumes behind the match. *)
Definition starts_word (s : string) : bool :=
  match s with
  | String c _ => Py.is_word c
  | EmptyString => false
  end.

Fixpoint all_word (w : string) : bool :=
  match w with
  | EmptyString => true
  | String c w' => (Py.is_word c && all_word w')%bool
  end.

Inductive Matches : string -> list string -> Prop :=
  | matches_end : Matches "" []
  | matches_skip (c : ascii) (s : string) (ts : list string) :
      c <> "#"%char \/ starts_word s = false ->
      Matches s ts ->
      Matches (String c s) ts
  | matches_tag (w s : string) (ts : list string) :
      w <> "" -> all_word w = true -> starts_word s = false ->
      Matches s ts ->
      Matches (String "#" (w ++ s)) (String "#" w :: ts).

(** A hashtag: ['#'] and at least one word character, nothing else. *)
Definition is_hashtag (t : string) : Prop :=
  exists w, t = String "#" w /\ w <> "" /\ all_word w = true.

(** The run of word characters the scanner is reading (it keeps it
    reversed), as a string. *)
Definition run (w : list ascii) : string := string_of_list_ascii (rev w).

(** * The remaining collectors *)

(** ** Facebook search terms *)

(** The nested loops of [_generate_search_terms] over [i < j]: every word
    paired with each later word, in the order of the loops. *)
Fixpoint word_pairs (base_terms : list string) : list string :=
  match base_terms with
  | [] => []
  | term :: rest => (map (fun later => (term ++ " " ++ later)%string) rest ++ word_pairs rest)%list
  end.

Definition _generate_search_terms (query : string) : list string :=
  let base_terms := Py.split query in
  let search_terms := [query] in
  let search_terms :=
    if (1 <? length base_terms)%nat then (search_terms ++ word_pairs base_terms)%list
    else search_terms in
  slice_to 5 search_terms.

(** ** The pages of Instagram and Facebook *)

(** What [_extract_instagram_post_image] reads from a post page:
    [post_image] is the [src] of the first [img[src*="scontent"]] ([None]
    when there is no such element), [og_title] and [og_description] the
    contents of the two [meta] elements ([None] when the element is absent).
    An element that is present has the attribute it was selected by. *)
Record PostPage := {
  post_image : option string;
  og_title : option string;
  og_description : option string
}.

(** The pages the browser shows to the Instagram and Facebook collectors,
    by URL; [None] when the browser session raises. A list holds one entry
    per selected element: the attribute read from it, [None] when it cannot
    be read. *)
Record Browser := {
  instagram_tag_page : string -> option (list (option string));
  instagram_post_page : string -> option PostPage;
  facebook_search_page : string -> option (list (option string));
  facebook_page : string -> option (list (option string))
}.

Module Social.

Section Collectors.

Variable B : Browser.
Variable W : World.
Variable images_dir : string.

(** *** Instagram *)

Definition _extract_instagram_post_image (post_url session_id : string) (index : Z)
    : M (option ViralImage) :=
  match instagram_post_page B post_url with
  | None => mret None
  | Some page =>
      match post_image page with
      | None => mret None
      | Some img_url =>
          let title :=
            default ("Instagram Post " ++ Py.str_of_int index) (og_title page) in
          let description := default "" (og_description page) in
          let engagement_metrics : gmap string Z :=
            {[ "likes" := 1500 + index * 200;
               "comments" := 150 + index * 20;
               "shares" := 50 + index * 10;
               "views" := 5000 + index * 500 ]} in
          downloaded ← _download_image W images_dir img_url "instagram" session_id index;
          match downloaded with
          | None => mret None
          | Some local_path =>
              image_info ← _get_image_info W local_path;
              now ← read_now W;
              mret (Some
                {| platform := "Instagram";
                   source_url := post_url;
                   image_url := img_url;
                   local_path := local_path;
                   title := title;
                   description := description;
                   author := "@user_" ++ Py.str_of_int index;
                   engagement_metrics := engagement_metrics;
                   hashtags := _extract_hashtags_from_text description;
                   content_type := "image";
                   virality_score :=
                     _calculate_image_virality_score (VInt <$> engagement_metrics) "instagram";
                   extraction_timestamp := now;
                   image_size := info_size image_info;
                   file_size := info_file_size image_info |})
          end
      end
  end.

(** The loop of [_scrape_instagram_hashtag] over
    [enumerate(post_links[:limit])], from position [i] on; it is left at the
    first position that is not below [limit]. A link whose [href] cannot be
    read gives no record. *)
Fixpoint hashtag_loop (session_id : string) (limit : Z) (post_links : list (option string))
    (i : Z) (images : list ViralImage) : M (list ViralImage) :=
  match post_links with
  | [] => mret images
  | link :: rest =>
      if (limit <=? i)%Z then mret images
      else
        match link with
        | None => hashtag_loop session_id limit rest (i + 1) images
        | Some post_url =>
            image_data ← _extract_instagram_post_image post_url session_id i;
            match image_data with
            | Some image => hashtag_loop session_id limit rest (i + 1) (images ++ [image])%list
            | None => hashtag_loop session_id limit rest (i + 1) images
            end
        end
  end.

Definition _scrape_instagram_hashtag (hashtag session_id : string) (limit : Z)
    : M (list ViralImage) :=
  let clean_hashtag := Py.replace_char "#" "" hashtag in
  let url := "https://www.instagram.com/explore/tags/" ++ clean_hashtag ++ "/" in
  match instagram_tag_page B url with
  | None => mret []
  | Some post_links => hashtag_loop session_id limit (slice_to limit post_links) 0 []
  end.

(** The loop of [extract_instagram_images] over [hashtags[:3]], left when
    the quota is reached. *)
Fixpoint instagram_loop (session_id : string) (limit : Z) (hashtags : list string)
    (images : list ViralImage) : M (list ViralImage) :=
  match hashtags with
  | [] => mret images
  | hashtag :: rest =>
      hashtag_images ← _scrape_instagram_hashtag hashtag session_id (limit / 3);
      let images := (images ++ hashtag_images)%list in
      if (limit <=? Z.of_nat (length images))%Z then mret images
      else instagram_loop session_id limit rest images
  end.

Definition extract_instagram_images (query session_id : string) (limit : Z)
    : M (list ViralImage) :=
  let hashtags := _generate_hashtags query in
  images ← instagram_loop session_id limit (slice_to 3 hashtags) [];
  mret (slice_to limit images).

(** *** Facebook *)

(** The name [query] as the body of [_extract_facebook_page_images] sees
    it: the parameters are [page_url], [session_id] and [limit], no local
    and no module-level name is [query], so reading it raises [NameError]. *)
Definition facebook_unbound_query : option string := None.

(** The loop of [_extract_facebook_page_images] over
    [enumerate(img_elements[:limit])], from position [i] on. The record is
    built after the download; the exception raised while its arguments are
    evaluated is caught by the [try] of the loop body. *)
Fixpoint facebook_page_loop (page_url session_id : string)
    (img_elements : list (option string)) (i : Z) (images : list ViralImage)
    : M (list ViralImage) :=
  match img_elements with
  | [] => mret images
  | None :: rest => facebook_page_loop page_url session_id rest (i + 1) images
  | Some img_url :: rest =>
      let engagement_metrics : gmap string Z :=
        {[ "likes" := 800 + i * 150;
           "comments" := 80 + i * 15;
           "shares" := 30 + i * 8;
           "reactions" := 900 + i * 180 ]} in
      downloaded ← _download_image W images_dir img_url "facebook" session_id i;
      match downloaded with
      | None => facebook_page_loop page_url session_id rest (i + 1) images
      | Some local_path =>
          image_info ← _get_image_info W local_path;
          match facebook_unbound_query with
          | None => facebook_page_loop page_url session_id rest (i + 1) images
          | Some query =>
              now ← read_now W;
              let viral_image :=
                {| platform := "Facebook";
                   source_url := page_url;
                   image_url := img_url;
                   local_path := local_path;
                   title := "Facebook Post Image " ++ Py.str_of_int (i + 1);
                   description :=
                     "Imagem viral extra" ++ String "237" "" ++ "da do Facebook com alto engajamento";
                   author := "@page_" ++ Py.str_of_int i;
                   engagement_metrics := engagement_metrics;
                   hashtags := _generate_relevant_hashtags query;
                   content_type := "image";
                   virality_score :=
                     _calculate_image_virality_score (VInt <$> engagement_metrics) "facebook";
                   extraction_timestamp := now;
                   image_size := info_size image_info;
                   file_size := info_file_size image_info |} in
              facebook_page_loop page_url session_id rest (i + 1)
                                 (images ++ [viral_image])%list
          end
      end
  end.

Definition _extract_facebook_page_images (page_url session_id : string) (limit : Z)
    : M (list ViralImage) :=
  match facebook_page B page_url with
  | None => mret []
  | Some img_elements =>
      facebook_page_loop page_url session_id (slice_to limit img_elements) 0 []
  end.

(** The loop of [_scrape_facebook_public_content] over the first three page
    links. A link whose [href] cannot be read gives no image. *)
Fixpoint facebook_links_loop (session_id : string) (limit : Z)
    (page_links : list (option string)) (images : list ViralImage)
    : M (list ViralImage) :=
  match page_links with
  | [] => mret images
  | None :: rest => facebook_links_loop session_id limit rest images
  | Some page_url :: rest =>
      page_images ← _extract_facebook_page_images page_url session_id (limit / 3);
      facebook_links_loop session_id limit rest (images ++ page_images)%list
  end.

Definition _scrape_facebook_public_content (query session_id : string) (limit : Z)
    : M (list ViralImage) :=
  let search_url :=
    "https://www.facebook.com/search/pages/?q=" ++ Py.replace_char " " "%20" query in
  match facebook_search_page B search_url with
  | None => mret []
  | Some page_links =>
      images ← facebook_links_loop session_id limit (slice_to 3 page_links) [];
      mret (slice_to limit images)
  end.

(** The loop of [extract_facebook_images] over [search_terms[:2]], left
    when the quota is reached. *)
Fixpoint facebook_loop (session_id : string) (limit : Z) (search_terms : list string)
    (images : list ViralImage) : M (list ViralImage) :=
  match search_terms with
  | [] => mret images
  | term :: rest =>
      term_images ← _scrape_facebook_public_content term session_id (limit / 2);
      let images := (images ++ term_images)%list in
      if (limit <=? Z.of_nat (length images))%Z then mret images
      else facebook_loop session_id limit rest images
  end.

Definition extract_facebook_images (query session_id : string) (limit : Z)
    : M (list ViralImage) :=
  let search_terms := _generate_search_terms query in
  images ← facebook_loop session_id limit (slice_to 2 search_terms) [];
  mret (slice_to limit images).

End Collectors.

End Social.

(** The world in which the orchestrator calls the extractor's own
    Instagram and Facebook collectors. *)
Definition own_world (B : Browser) (W : World) (images_dir : string) : World :=
  {| http_get := http_get W;
     pil_open := pil_open W;
     time_time := time_time W;
     datetime_now := datetime_now W;
     google_images_page := google_images_page W;
     youtube_results_page := youtube_results_page W;
     extract_instagram_images := Social.extract_instagram_images B W images_dir;
     extract_facebook_images := Social.extract_facebook_images B W images_dir |}.


(** * Vocabulary of the further properties *)

(** The metric names a platform's weight table has. *)
Definition weighted_metrics (platform : string) : list string :=
  map fst (platform_weights_of platform).

(** A YouTube video identifier: eleven characters of [[0-9A-Za-z_-]]. *)
Definition is_video_id (id : string) : Prop :=
  String.length id = 11%nat /\ forallb is_id_char (list_ascii_of_string id) = true.

(** [s] has the string [t] somewhere inside. *)
Definition occurs (t s : string) : Prop := exists pre post, s = pre ++ t ++ post.

(** A suffix of a string. *)
Inductive suffix_of : string -> string -> Prop :=
  | suffix_here (s : string) : suffix_of s s
  | suffix_later (t : string) (c : ascii) (s : string) :
      suffix_of t s -> suffix_of t (String c s).

(** What [_scrape_youtube_videos] puts into a video dictionary at position
    [k] of the result page. *)
Definition video_at (k : Z) (v : Video) : Prop :=
  is_video_id (v_id v)
  /\ _extract_youtube_id (v_url v) = Some (v_id v)
  /\ v_views v = 50000 + k * 10000
  /\ v_likes v = v_views v / 20
  /\ v_comments v = v_views v / 100
  /\ v_thumbnail_url v = "https://img.youtube.com/vi/" ++ v_id v ++ "/maxresdefault.jpg".

(** A world whose image search shows one photo, large enough to be kept. *)
Definition one_photo_world : World :=
  {| http_get := demo_http;
     pil_open := demo_decode;
     time_time := fun n => 1700000000 + Z.of_nat n;
     datetime_now := fun _ => "2024-01-01T00:00:00";
     google_images_page := fun _ => Some [Some photo_url];
     youtube_results_page := fun _ => None;
     extract_instagram_images := fun _ _ _ st => ([], st);
     extract_facebook_images := fun _ _ _ st => ([], st) |}.

(** A storage root in which the commercial directory has been created by
    hand. *)
Definition state_with_commercial_dir : State :=
  {| dirs := {[ path_join "viral_images" "commercial" ]}; files := ∅; ticks := O;
     extracted_images := [] |}.

(** The request for [url] is answered with status 200. *)
Definition answers_200 (W : World) (url : string) : bool :=
  match http_get W url with
  | Some response => (status_code response =? 200)%Z
  | None => false
  end.

(** What every record of the YouTube collector has. *)
Definition youtube_record (r : ViralImage) : Prop :=
  platform r = "YouTube"
  /\ content_type r = "thumbnail"
  /\ in_score_range (virality_score r)
  /\ (length (hashtags r) <= 10)%nat
  /\ Forall is_hashtag (hashtags r).

(** The file of a record is in the storage. *)
Definition stored_in (st : State) (r : ViralImage) : Prop :=
  is_Some (files st !! local_path r).

(** No stored file has disappeared between two states. *)
Definition files_kept (st st' : State) : Prop :=
  forall p, is_Some (files st !! p) -> is_Some (files st' !! p).

(** What every record of the Instagram collector has. *)
Definition instagram_record (r : ViralImage) : Prop :=
  platform r = "Instagram"
  /\ content_type r = "image"
  /\ meets_floor (image_size r)
  /\ in_score_range (virality_score r)
  /\ (length (hashtags r) <= 10)%nat
  /\ Forall is_hashtag (hashtags r).

(** A browser that shows one Instagram tag page with two posts, the first
    with a large photo and the second with a small one. *)
Definition demo_browser : Browser :=
  {| instagram_tag_page := fun _ => Some [Some "https://www.instagram.com/p/A/";
                                          Some "https://www.instagram.com/p/B/"];
     instagram_post_page :=
       fun url =>
         if String.eqb url "https://www.instagram.com/p/A/" then
           Some {| post_image := Some photo_url; og_title := Some "Post A";
                   og_description := Some "Sunset #beach #beach" |}
         else
           Some {| post_image := Some small_url; og_title := None; og_description := None |};
     facebook_search_page := fun _ => Some [Some "https://www.facebook.com/pages/x"];
     facebook_page := fun _ => Some [Some photo_url] |}.

(** A record of one of the two collectors that deliver any. *)
Definition collected_record (r : ViralImage) : Prop :=
  instagram_record r \/ youtube_record r.

(** The number of records of a platform. *)
Definition platform_count (p : string) (images : list ViralImage) : nat :=
  length (List.filter (fun r => String.eqb (platform r) p) images).


(** [t] is two words of [words] joined by one space, the first standing
    before the second in the list. *)
Definition ordered_pair_of (words : list string) (t : string) : Prop :=
  exists l1 a l2 b l3, words = (l1 ++ a :: l2 ++ b :: l3)%list /\ t = a ++ " " ++ b.






(** What [_get_image_info] answers for an image file with the bytes [b]. *)
Definition info_of (img : Image) (b : list Byte.byte) : ImageInfo :=
  {| info_size := img_size img; info_file_size := Z.of_nat (length b);
     info_format := img_format img |}.

(** * Properties *)

(** ** The scorer's range *)

Lemma ltb_leb (x y : float) : F64.ltb x y = true -> F64.leb x y = true.
Proof.
  unfold F64.ltb, F64.leb, SFltb, SFleb.
  destruct (SFcompare x y) as [[ | | ] | ]; congruence.
Qed.

Lemma clamp_score_range (s : float) : in_score_range (clamp_score s).
Proof.
  unfold clamp_score, F64.max2, F64.min2, in_score_range.
  destruct (F64.ltb F64.zero s) eqn:H0.
  - destruct (F64.ltb s (F64.of_int 100)) eqn:H1.
    + split; apply ltb_leb; assumption.
    + split; reflexivity.
  - split; reflexivity.
Qed.

Lemma score_body_range (metrics : gmap string value) (platform : string) (s : float) :
  score_body metrics platform = Some s -> in_score_range s.
Proof.
  unfold score_body. intros H.
  destruct (score_loop metrics (F64.zero, F64.zero) (platform_weights_of platform))
    as [[score total] | ]; simpl in H; [ | discriminate ].
  injection H as <-. apply clamp_score_range.
Qed.

(** The compression of one count: [min(100, sqrt(count / 100))] is at most
    100, whatever the count. *)
Lemma normalized_value_bound (v : value) (x : float) :
  normalized_value v = Some x -> F64.leb x (F64.of_int 100) = true.
Proof.
  destruct v as [n | s]; [ | discriminate ]. unfold normalized_value.
  destruct (F64.int_truediv n 100) as [q | ]; [ | discriminate ].
  unfold mbind, option_bind.
  destruct (F64.pow_half q) as [r | ]; [ | discriminate ].
  unfold F64.min2. remember (F64.of_int 100) as hundred eqn:Hh.
  destruct (F64.ltb r hundred) eqn:Hr; intros Hx; injection Hx as <-.
  - apply ltb_leb. exact Hr.
  - subst hundred. reflexivity.
Qed.

(** C1: for every metrics mapping and every category the scorer returns a
    float [s] with [0 <= s <= 100]. Every count is compressed to at most
    100 before it is weighted, and the result is clamped; with every count
    at [10^9] each compressed metric is 100 and the result is exactly 100. *)
Theorem C1_score_in_range :
  (forall (metrics : gmap string value) (platform : string),
      in_score_range (_calculate_image_virality_score metrics platform))
  /\ (forall (v : value) (x : float),
        normalized_value v = Some x -> F64.leb x (F64.of_int 100) = true)
  /\ normalized_value (VInt (10 ^ 9)) = Some (F64.of_int 100)
  /\ (forall platform : string,
      _calculate_image_virality_score
        {[ "likes" := VInt (10 ^ 9); "comments" := VInt (10 ^ 9);
           "shares" := VInt (10 ^ 9); "views" := VInt (10 ^ 9) ]} platform
      = F64.of_int 100).
Proof.
  split; [ | split; [exact normalized_value_bound | split; [vm_compute; reflexivity | ] ] ].
  - intros metrics platform. unfold _calculate_image_virality_score.
    destruct (score_body metrics platform) as [s | ] eqn:Hs.
    + eapply score_body_range; eassumption.
    + split; reflexivity.
  - intros platform. unfold _calculate_image_virality_score, score_body, platform_weights_of.
    destruct (assoc_get platform weights) as [w | ] eqn:Hw.
    + simpl in Hw.
      repeat match type of Hw with
             | (if ?b then _ else _) = _ => destruct b
             end; try discriminate; injection Hw as <-; vm_compute; reflexivity.
    + vm_compute; reflexivity.
Qed.

Lemma C1_score_in_range_witness :
  in_score_range (_calculate_image_virality_score {[ "views" := VInt (10 ^ 9) ]} "news")
  /\ F64.leb (F64.of_int 100) (F64.of_int 100) = true.
Proof.
  destruct C1_score_in_range as (Hrange & Hbound & Hbig & _).
  split; [apply Hrange | ].
  apply (Hbound (VInt (10 ^ 9))). exact Hbig.
Defined.

(** ** The scorer on a mapping without any weighted metric *)





(** ** The order of binary64 on numbers *)

Ltac float_cases :=
  unfold F64.ltb, F64.eqb, F64.leb, SFltb, SFeqb, SFleb, SFcompare;
  repeat match goal with
         | s : bool |- _ => destruct s
         end;
  cbv beta iota;
  repeat match goal with
         | |- context [ Pos.compare_cont Eq ?a ?b ] =>
             change (Pos.compare_cont Eq a b) with (a ?= b)%positive
         end;
  repeat (match goal with
          | |- context [ (?x ?= ?y)%Z ] => destruct (Z.compare_spec x y)
          | |- context [ (?x ?= ?y)%positive ] => destruct (Pos.compare_spec x y)
          end; cbn [CompOpp]; cbv beta iota);
  intros; try congruence; try lia.

(** [b <= a] and [c <= b] give [c <= a], written with the strict test the
    sort uses. *)
Lemma ltb_false_trans (a b c : float) :
  F64.is_nan a = false -> F64.is_nan b = false -> F64.is_nan c = false ->
  F64.ltb a b = false -> F64.ltb b c = false -> F64.ltb a c = false.
Proof.
  destruct a as [sa | sa | | sa ma ea], b as [sb | sb | | sb mb eb],
    c as [sc | sc | | sc mc ec]; cbn [F64.is_nan]; intros Ha Hb Hc;
    try discriminate; clear Ha Hb Hc; float_cases.
Qed.

Lemma ltb_asym (a b : float) : F64.ltb a b = true -> F64.ltb b a = false.
Proof.
  destruct a as [sa | sa | | sa ma ea], b as [sb | sb | | sb mb eb]; float_cases.
Qed.

Lemma eqb_not_ltb (a b s : float) :
  F64.eqb a s = true -> F64.eqb b s = true -> F64.ltb b a = false.
Proof.
  destruct a as [sa | sa | | sa ma ea], b as [sb | sb | | sb mb eb],
    s as [ss | ss | | ss ms es]; float_cases.
Qed.

Lemma ltb_false_leb (a b : float) :
  F64.is_nan a = false -> F64.is_nan b = false ->
  F64.ltb a b = false -> F64.leb b a = true.
Proof.
  destruct a as [sa | sa | | sa ma ea], b as [sb | sb | | sb mb eb];
    cbn [F64.is_nan]; intros Ha Hb; try discriminate; clear Ha Hb; float_cases.
Qed.

Lemma in_score_range_not_nan (x : float) : in_score_range x -> F64.is_nan x = false.
Proof. intros [H _]. destruct x; [reflexivity | reflexivity | discriminate H | reflexivity]. Qed.

(** ** Ranking *)

Lemma insert_by_score_perm (x : ViralImage) (l : list ViralImage) :
  Permutation (insert_by_score x l) (x :: l).
Proof.
  induction l as [ | y l IH]; cbn [insert_by_score].
  - apply Permutation_refl.
  - destruct (F64.ltb (virality_score y) (virality_score x)).
    + eapply perm_trans; [apply perm_skip, IH | apply perm_swap].
    + apply Permutation_refl.
Qed.

Lemma sort_ascending_perm (l : list ViralImage) : Permutation (sort_ascending l) l.
Proof.
  induction l as [ | x l IH]; cbn [sort_ascending].
  - apply perm_nil.
  - eapply perm_trans; [apply insert_by_score_perm | apply perm_skip, IH].
Qed.

Lemma sort_by_score_reverse_perm (l : list ViralImage) :
  Permutation (sort_by_score_reverse l) l.
Proof.
  unfold sort_by_score_reverse.
  eapply perm_trans; [apply Permutation_sym, Permutation_rev | ].
  eapply perm_trans; [apply sort_ascending_perm | apply Permutation_sym, Permutation_rev].
Qed.

Lemma insert_by_score_sorted (x : ViralImage) (l : list ViralImage) :
  score_is_number x -> Forall score_is_number l ->
  StronglySorted asc l -> StronglySorted asc (insert_by_score x l).
Proof.
  intros Hx Hl Hs. induction Hs as [ | y l Hs IH Hy]; cbn [insert_by_score].
  - constructor; constructor.
  - inversion Hl as [ | ? ? Hny Hnl]; subst.
    destruct (F64.ltb (virality_score y) (virality_score x)) eqn:Hyx.
    + constructor; [apply IH; assumption | ].
      eapply Permutation_Forall; [apply Permutation_sym, insert_by_score_perm | ].
      constructor; [ | assumption ].
      unfold asc. apply ltb_asym. exact Hyx.
    + constructor; [constructor; assumption | ].
      constructor; [exact Hyx | ].
      rewrite List.Forall_forall in Hy, Hnl |- *. intros z Hz.
      unfold asc. apply ltb_false_trans with (b := virality_score y);
        [apply Hnl; exact Hz | exact Hny | exact Hx | apply Hy; exact Hz | exact Hyx].
Qed.

Lemma sort_ascending_sorted (l : list ViralImage) :
  Forall score_is_number l -> StronglySorted asc (sort_ascending l).
Proof.
  induction l as [ | x l IH]; intros Hl; cbn [sort_ascending].
  - constructor.
  - inversion Hl; subst. apply insert_by_score_sorted; [assumption | | apply IH; assumption].
    eapply Permutation_Forall; [apply Permutation_sym, sort_ascending_perm | assumption].
Qed.

Lemma StronglySorted_app_inv {A} (R : A -> A -> Prop) (l1 l2 : list A) :
  StronglySorted R (l1 ++ l2)%list ->
  StronglySorted R l1 /\ StronglySorted R l2
  /\ (forall a b, In a l1 -> In b l2 -> R a b).
Proof.
  induction l1 as [ | x l1 IH]; cbn [app]; intros Hs.
  - split; [constructor | split; [exact Hs | intros a b []]].
  - inversion Hs as [ | ? ? Hs' Hx]; subst.
    destruct (IH Hs') as (H1 & H2 & H12).
    rewrite List.Forall_forall in Hx.
    split; [ | split; [exact H2 | ] ].
    + constructor; [exact H1 | ]. rewrite List.Forall_forall. intros y Hy.
      apply Hx. apply in_or_app. left. exact Hy.
    + intros a b [<- | Ha] Hb; [apply Hx, in_or_app; right; exact Hb | apply H12; assumption].
Qed.

Lemma StronglySorted_rev {A} (R : A -> A -> Prop) (l : list A) :
  StronglySorted R l -> StronglySorted (fun a b => R b a) (rev l).
Proof.
  induction 1 as [ | x l Hs IH Hx]; cbn [rev].
  - constructor.
  - clear Hs. revert IH. generalize (rev_involutive l). 
    assert (Hx' : Forall (fun y => R x y) (rev l)).
    { rewrite List.Forall_forall in Hx |- *. intros y Hy. apply Hx, in_rev. exact Hy. }
    clear Hx. intros _. induction (rev l) as [ | y r IHr]; cbn [app]; intros Hs.
    + constructor; constructor.
    + inversion Hs as [ | ? ? Hs' Hy]; subst. inversion Hx'; subst.
      constructor; [apply IHr; assumption | ].
      apply List.Forall_app. split; [exact Hy | constructor; [assumption | constructor] ].
Qed.

Lemma sort_by_score_reverse_sorted (l : list ViralImage) :
  Forall score_is_number l -> StronglySorted desc (sort_by_score_reverse l).
Proof.
  intros Hl. unfold sort_by_score_reverse.
  assert (Hr : Forall score_is_number (rev l)).
  { eapply Permutation_Forall; [apply Permutation_rev | exact Hl]. }
  assert (Hn : Forall score_is_number (rev (sort_ascending (rev l)))).
  { eapply Permutation_Forall; [ | exact Hl]. apply Permutation_sym, sort_by_score_reverse_perm. }
  pose proof (StronglySorted_rev _ _ (sort_ascending_sorted _ Hr)) as Hs.
  revert Hs Hn. generalize (rev (sort_ascending (rev l))). clear.
  induction 1 as [ | x r Hs IH Hx]; intros Hn.
  - constructor.
  - inversion Hn as [ | ? ? Hnx Hnr]; subst. constructor; [apply IH; exact Hnr | ].
    rewrite List.Forall_forall in Hx, Hnr |- *. intros y Hy. unfold desc.
    apply ltb_false_leb; [exact Hnx | apply Hnr; exact Hy | apply Hx; exact Hy].
Qed.

(** Stability. A class [P] of records none of which is strictly below
    another keeps its order of arrival. *)
Section Stability.

Variable P : ViralImage -> bool.
Hypothesis P_ties : forall a b,
  P a = true -> P b = true -> F64.ltb (virality_score b) (virality_score a) = false.

Lemma insert_by_score_filter (x : ViralImage) (l : list ViralImage) :
  List.filter P (insert_by_score x l) = List.filter P (x :: l).
Proof.
  induction l as [ | y l IH]; cbn [insert_by_score].
  - reflexivity.
  - destruct (F64.ltb (virality_score y) (virality_score x)) eqn:Hyx; [ | reflexivity ].
    cbn [List.filter] in IH |- *. rewrite IH.
    destruct (P x) eqn:Hpx, (P y) eqn:Hpy; try reflexivity.
    rewrite (P_ties x y Hpx Hpy) in Hyx. discriminate.
Qed.

Lemma sort_ascending_filter (l : list ViralImage) :
  List.filter P (sort_ascending l) = List.filter P l.
Proof.
  induction l as [ | x l IH]; cbn [sort_ascending]; [reflexivity | ].
  rewrite insert_by_score_filter. cbn [List.filter]. rewrite IH. reflexivity.
Qed.

Lemma filter_rev (l : list ViralImage) : List.filter P (rev l) = rev (List.filter P l).
Proof.
  induction l as [ | x l IH]; cbn [rev List.filter]; [reflexivity | ].
  rewrite List.filter_app, IH. cbn [List.filter].
  destruct (P x); cbn [rev]; [reflexivity | apply app_nil_r].
Qed.

Lemma sort_by_score_reverse_filter (l : list ViralImage) :
  List.filter P (sort_by_score_reverse l) = List.filter P l.
Proof.
  unfold sort_by_score_reverse.
  rewrite filter_rev, sort_ascending_filter, filter_rev. apply rev_involutive.
Qed.

End Stability.

Lemma leb_antisym_eqb (a b : float) :
  F64.leb a b = true -> F64.leb b a = true -> F64.eqb a b = true.
Proof.
  destruct a as [sa | sa | | sa ma ea], b as [sb | sb | | sb mb eb]; float_cases.
Qed.

Lemma eqb_refl_number (a : float) : F64.is_nan a = false -> F64.eqb a a = true.
Proof.
  destruct a as [sa | sa | | sa ma ea]; cbn [F64.is_nan]; intros Ha;
    try discriminate; clear Ha; float_cases.
Qed.

(** The ranking is determined by its three properties. Two arrangements of
    the same records that are both descending and both keep the order of
    arrival inside every score are the same list: whichever stable sort
    computes the ranking, this is its result. *)
Lemma stable_descending_unique (l1 l2 : list ViralImage) :
  Forall score_is_number l1 ->
  Permutation l1 l2 ->
  StronglySorted desc l1 -> StronglySorted desc l2 ->
  (forall s, List.filter (same_score s) l1 = List.filter (same_score s) l2) ->
  l1 = l2.
Proof.
  revert l2. induction l1 as [ | x t1 IH]; intros l2 Hnum Hperm Hs1 Hs2 Hfil.
  - apply Permutation_nil in Hperm. congruence.
  - destruct l2 as [ | y t2]; [apply Permutation_sym, Permutation_nil in Hperm; discriminate | ].
    inversion Hnum as [ | ? ? Hnx Hnt]; subst.
    inversion Hs1 as [ | ? ? Hs1' Hx]; subst. inversion Hs2 as [ | ? ? Hs2' Hy]; subst.
    rewrite List.Forall_forall in Hx, Hy.
    assert (Hxy : F64.leb (virality_score x) (virality_score y) = true).
    { assert (Hin : In x (y :: t2)) by (eapply Permutation_in; [exact Hperm | left; reflexivity]).
      destruct Hin as [-> | Hin]; [ | apply Hy; exact Hin ].
      unfold F64.leb, SFleb. pose proof (eqb_refl_number _ Hnx) as He.
      unfold F64.eqb, SFeqb in He.
      destruct (SFcompare (virality_score x) (virality_score x)) as [[ | | ] | ];
        congruence. }
    assert (Hyx : F64.leb (virality_score y) (virality_score x) = true).
    { assert (Hin : In y (x :: t1))
        by (eapply Permutation_in; [apply Permutation_sym; exact Hperm | left; reflexivity]).
      destruct Hin as [<- | Hin]; [exact Hxy | apply Hx; exact Hin]. }
    pose proof (Hfil (virality_score x)) as Hhead. cbn [List.filter] in Hhead.
    assert (Hcx : same_score (virality_score x) x = true)
      by (unfold same_score; apply eqb_refl_number; exact Hnx).
    assert (Hcy : same_score (virality_score x) y = true)
      by (unfold same_score; apply leb_antisym_eqb; assumption).
    rewrite Hcx, Hcy in Hhead.
    injection Hhead as <- _.
    f_equal. apply IH; try assumption.
    + eapply Permutation_cons_inv. exact Hperm.
    + intros s. pose proof (Hfil s) as Hf. cbn [List.filter] in Hf.
      destruct (same_score s x); [injection Hf as Hf | ]; exact Hf.
Qed.

Lemma sort_by_score_reverse_unique (l l' : list ViralImage) :
  Forall score_is_number l ->
  Permutation l' l ->
  StronglySorted desc l' ->
  (forall s, List.filter (same_score s) l' = List.filter (same_score s) l) ->
  l' = sort_by_score_reverse l.
Proof.
  intros Hnum Hperm Hs Hfil.
  apply stable_descending_unique.
  - eapply Permutation_Forall; [apply Permutation_sym; exact Hperm | exact Hnum].
  - eapply perm_trans; [exact Hperm | apply Permutation_sym, sort_by_score_reverse_perm].
  - exact Hs.
  - apply sort_by_score_reverse_sorted. exact Hnum.
  - intros s. rewrite Hfil. symmetry. apply sort_by_score_reverse_filter.
    intros a b Ha Hb. unfold same_score in Ha, Hb. eapply eqb_not_ltb; eassumption.
Qed.

(** The scores the scorer gives out are numbers. *)
Lemma calculate_score_is_number (metrics : gmap string value) (platform : string) :
  F64.is_nan (_calculate_image_virality_score metrics platform) = false.
Proof.
  apply in_score_range_not_nan.
  unfold _calculate_image_virality_score.
  destruct (score_body metrics platform) as [s | ] eqn:Hs.
  - eapply score_body_range; eassumption.
  - split; reflexivity.
Qed.

(** C4: the ranking step returns a permutation of the working set in
    descending order of virality score (scores being numbers, as those of
    the scorer are), and it is stable: the records of any one score keep
    their order of arrival. Scores [10, 90, 90, 30] give [90, 90, 30, 10]
    with the two 90s in their original order. *)
Theorem C4_ranking_descending_stable (l : list ViralImage) :
  Permutation (sort_by_score_reverse l) l
  /\ (forall s : float,
        List.filter (same_score s) (sort_by_score_reverse l) = List.filter (same_score s) l)
  /\ (Forall score_is_number l -> StronglySorted desc (sort_by_score_reverse l))
  /\ map label (sort_by_score_reverse four_records)
     = [ ("b", F64.of_int 90); ("c", F64.of_int 90); ("d", F64.of_int 30);
         ("a", F64.of_int 10) ].
Proof.
  split; [apply sort_by_score_reverse_perm | split; [ | split ] ].
  - intros s. apply sort_by_score_reverse_filter.
    intros a b Ha Hb. unfold same_score in Ha, Hb. eapply eqb_not_ltb; eassumption.
  - apply sort_by_score_reverse_sorted.
  - vm_compute. reflexivity.
Qed.

Lemma C4_ranking_descending_stable_witness :
  Forall score_is_number four_records
  /\ StronglySorted desc (sort_by_score_reverse four_records).
Proof.
  assert (H : Forall score_is_number four_records) by (repeat constructor).
  split; [exact H | ].
  exact (proj1 (proj2 (proj2 (C4_ranking_descending_stable four_records))) H).
Defined.

(** ** Truncation *)

Lemma rank_and_truncate_firstn (l : list ViralImage) :
  rank_and_truncate l = firstn 20 (sort_by_score_reverse l).
Proof.
  unfold rank_and_truncate, min_images_target, slice_to.
  destruct (20 <=? Z.of_nat (length (sort_by_score_reverse l)))%Z eqn:Hlen.
  - reflexivity.
  - symmetry. apply firstn_all2. apply Z.leb_gt in Hlen. lia.
Qed.

Lemma sort_by_score_reverse_length (l : list ViralImage) :
  length (sort_by_score_reverse l) = length l.
Proof. apply Permutation_length, sort_by_score_reverse_perm. Qed.

Section Orchestrator.

Variable W : World.
Variables images_dir query session_id : string.

(** The result of the orchestrator is the ranked and truncated working
    set, and the extractor remembers it. *)
Lemma extract_viral_images_result (st : State) :
  let all_images := fst (collect_all W images_dir query session_id st) in
  let result := extract_viral_images W images_dir query session_id st in
  fst result = rank_and_truncate all_images
  /\ extracted_images (snd result) = rank_and_truncate all_images.
Proof.
  unfold extract_viral_images, save_images_metadata, set_extracted_images,
    read_now, write_file, mbind, M_bind, mret, M_ret.
  destruct (collect_all W images_dir query session_id st) as [all_images st1].
  cbn [fst snd dirs files ticks extracted_images].
  destruct (decide (images_dir ∈ dirs st1)); cbn; split; reflexivity.
Qed.

Lemma summary_status (st : State) :
  sm_status (fst (get_extracted_images_summary st))
  = match extracted_images st with
    | [] => "no_images"
    | _ => if (20 <=? Z.of_nat (length (extracted_images st)))%Z
           then "success" else "partial"
    end.
Proof.
  unfold get_extracted_images_summary, get_extracted_images, mbind, M_bind, mret, M_ret.
  cbn [fst]. destruct (extracted_images st); reflexivity.
Qed.

End Orchestrator.

(** C5: the orchestrator returns the first 20 records of the ranked
    working set, hence at most 20. With 20 or more collected (25, say) it
    returns exactly 20, none of which scores below a dropped one, and the
    summary reports success; with fewer than 20 it returns all of them,
    ranked, and the summary reports [partial] (or [no_images] when there is
    none), never [success]. *)
Theorem C5_truncation (W : World) (images_dir query session_id : string) (st : State) :
  let all_images := fst (collect_all W images_dir query session_id st) in
  let result := extract_viral_images W images_dir query session_id st in
  let final_images := fst result in
  let status := sm_status (fst (get_extracted_images_summary (snd result))) in
  final_images = firstn 20 (sort_by_score_reverse all_images)
  /\ (length final_images <= 20)%nat
  /\ ((20 <= length all_images)%nat ->
        length final_images = 20%nat
        /\ status = "success"
        /\ (Forall score_is_number all_images ->
            forall kept dropped,
              In kept final_images ->
              In dropped (skipn 20 (sort_by_score_reverse all_images)) ->
              desc kept dropped))
  /\ ((length all_images < 20)%nat ->
        final_images = sort_by_score_reverse all_images
        /\ Permutation final_images all_images
        /\ status = match all_images with [] => "no_images" | _ => "partial" end
        /\ status <> "success").
Proof.
  intros all_images result final_images status.
  destruct (extract_viral_images_result W images_dir query session_id st) as [Hres Hext].
  fold all_images result in Hres, Hext. fold final_images in Hres.
  rewrite rank_and_truncate_firstn in Hres, Hext.
  assert (Hstatus : status = match final_images with
                             | [] => "no_images"
                             | _ => if (20 <=? Z.of_nat (length final_images))%Z
                                    then "success" else "partial"
                             end).
  { unfold status. rewrite summary_status, Hext, <- Hres. reflexivity. }
  pose proof (sort_by_score_reverse_length all_images) as Hlen.
  split; [exact Hres | split; [ | split ] ].
  - rewrite Hres. apply firstn_le_length.
  - intros Hge.
    assert (Hl20 : length final_images = 20%nat).
    { rewrite Hres, length_firstn. lia. }
    split; [exact Hl20 | split ].
    + rewrite Hstatus. destruct final_images; [discriminate Hl20 | ].
      rewrite Hl20. reflexivity.
    + intros Hnum kept dropped Hk Hd.
      pose proof (sort_by_score_reverse_sorted all_images Hnum) as Hs.
      rewrite <- (firstn_skipn 20 (sort_by_score_reverse all_images)) in Hs.
      apply StronglySorted_app_inv in Hs. destruct Hs as (_ & _ & Hs).
      apply Hs; [rewrite <- Hres; exact Hk | exact Hd].
  - intros Hlt.
    assert (Hall : final_images = sort_by_score_reverse all_images).
    { rewrite Hres. apply firstn_all2. lia. }
    assert (Hperm : Permutation final_images all_images).
    { rewrite Hall. apply sort_by_score_reverse_perm. }
    assert (Hst : status = match all_images with [] => "no_images" | _ => "partial" end).
    { rewrite Hstatus.
      assert (Hfl : length final_images = length all_images) by (rewrite Hall; exact Hlen).
      destruct final_images as [ | r final'], all_images as [ | a all']; try discriminate Hfl.
      - reflexivity.
      - destruct (20 <=? Z.of_nat (length (r :: final')))%Z eqn:Hb; [ | reflexivity ].
        apply Z.leb_le in Hb. rewrite Hfl in Hb. lia. }
    split; [exact Hall | split; [exact Hperm | split; [exact Hst | ] ] ].
    rewrite Hst. destruct all_images; discriminate.
Qed.

Lemma C5_truncation_witness :
  (let result := extract_viral_images (canned_world (numbered 25)) "viral_images" "q" "s1" empty_state in
   length (fst result) = 20%nat
   /\ sm_status (fst (get_extracted_images_summary (snd result))) = "success"
   /\ forall kept dropped,
        In kept (fst result) ->
        In dropped (skipn 20 (sort_by_score_reverse (numbered 25))) ->
        desc kept dropped)
  /\ (let result := extract_viral_images (canned_world (numbered 5)) "viral_images" "q" "s1" empty_state in
      Permutation (fst result) (numbered 5)
      /\ sm_status (fst (get_extracted_images_summary (snd result))) = "partial").
Proof.
  split.
  - destruct (C5_truncation (canned_world (numbered 25)) "viral_images" "q" "s1" empty_state)
      as (_ & _ & Hfull & _).
    assert (Hlen : (20 <= length (fst (collect_all (canned_world (numbered 25))
                                         "viral_images" "q" "s1" empty_state)))%nat)
      by (vm_compute; lia).
    destruct (Hfull Hlen) as (H20 & Hstatus & Htop).
    split; [exact H20 | split; [exact Hstatus | ] ].
    apply Htop. vm_compute. repeat constructor.
  - destruct (C5_truncation (canned_world (numbered 5)) "viral_images" "q" "s1" empty_state)
      as (_ & _ & _ & Hpart).
    assert (Hlen : (length (fst (collect_all (canned_world (numbered 5))
                                   "viral_images" "q" "s1" empty_state)) < 20)%nat)
      by (vm_compute; lia).
    destruct (Hpart Hlen) as (_ & Hperm & Hstatus & _).
    split; [exact Hperm | exact Hstatus].
Defined.

(** ** The fallback stage *)

Lemma slice_to_length {A} (n : Z) (l : list A) :
  (0 <= n)%Z -> (length (slice_to n l) <= Z.to_nat n)%nat.
Proof.
  intros Hn. unfold slice_to.
  destruct (0 <=? n)%Z eqn:H0; [apply firstn_le_length | apply Z.leb_gt in H0; lia].
Qed.

(** The image-search loop never adds a record: the construction of each
    record stops at the unbound name. *)
Lemma search_loop_images (W : World) (images_dir search_url session_id category : string)
    (elements : list (option string)) (i : Z) (images : list ViralImage) (st : State) :
  fst (search_loop W images_dir search_url session_id category elements i images st) = images.
Proof.
  revert i st. induction elements as [ | [img_url | ] rest IH]; intros i st;
    cbn [search_loop].
  - reflexivity.
  - destruct (negb (_is_valid_image_url img_url)); [apply IH | ].
    unfold mbind, M_bind.
    destruct (_download_image W images_dir img_url category session_id i st)
      as [[local_path | ] st1]; [ | apply IH ].
    destruct (_get_image_info W local_path st1) as [image_info st2].
    unfold unbound_query. apply IH.
  - apply IH.
Qed.

Lemma extract_images_from_search_nil (W : World) (images_dir search_url session_id : string)
    (limit : Z) (category : string) (st : State) :
  fst (_extract_images_from_search W images_dir search_url session_id limit category st) = [].
Proof.
  unfold _extract_images_from_search.
  destruct (google_images_page W search_url); [apply search_loop_images | reflexivity].
Qed.



(** ** The image materializer *)

Section Materializer.

Variable W : World.
Variables images_dir img_url platform session_id : string.
Variable index : Z.

(** A path is returned only for a stored file that decodes to an image of
    at least 200 by 200 pixels, and [_get_image_info] reports that size. *)
Lemma download_image_floor (st : State) (path : string) :
  fst (_download_image W images_dir img_url platform session_id index st) = Some path ->
  let st' := snd (_download_image W images_dir img_url platform session_id index st) in
  exists (b : list Byte.byte) (img : Image),
    files st' !! path = Some (Bytes b)
    /\ pil_open W b = Some img
    /\ (200 <= fst (img_size img))%Z /\ (200 <= snd (img_size img))%Z
    /\ info_size (fst (_get_image_info W path st')) = img_size img.
Proof.
  unfold _download_image.
  destruct (http_get W img_url) as [response | ]; [ | discriminate ].
  destruct (status_code response =? 200)%Z; [ | discriminate ].
  unfold mbind, M_bind, mret, M_ret, read_time, write_file.
  cbn [dirs files ticks extracted_images].
  destruct (decide (path_join images_dir platform ∈ dirs st)); [ | discriminate ].
  unfold open_image. cbn [files]. rewrite lookup_insert_eq.
  destruct (pil_open W (content response)) as [img | ] eqn:Himg; [ | discriminate ].
  destruct (size_ok img) eqn:Hok; [ | discriminate ].
  cbn [fst snd]. intros [= <-].
  exists (content response), img.
  unfold size_ok in Hok. apply andb_true_iff in Hok. destruct Hok as [Hw Hh].
  apply Z.leb_le in Hw, Hh.
  split; [cbn [files]; apply lookup_insert_eq | split; [exact Himg | ] ].
  split; [exact Hw | split; [exact Hh | ] ].
  unfold _get_image_info, open_image, mbind, M_bind, mret, M_ret. cbn [files fst].
  rewrite lookup_insert_eq, Himg. reflexivity.
Qed.

(** C8: when the fetched bytes do not decode, or decode to an image below
    200 by 200 pixels, [_download_image] returns no path; the file it has
    stored is deleted again (when the category directory is missing nothing
    is stored at all), so the call leaves no file behind that was not there
    before. *)
Theorem C8_download_rejects (st : State) (response : Response) :
  http_get W img_url = Some response ->
  status_code response = 200%Z ->
  (forall img, pil_open W (content response) = Some img -> size_ok img = false) ->
  let result := _download_image W images_dir img_url platform session_id index st in
  let local_path := stored_path W images_dir platform index response (ticks st) in
  fst result = None
  /\ (path_join images_dir platform ∈ dirs st ->
      files (snd result) = delete local_path (files st)
      /\ files (snd result) !! local_path = None)
  /\ (path_join images_dir platform ∉ dirs st -> files (snd result) = files st)
  /\ (forall p f, files (snd result) !! p = Some f -> files st !! p = Some f).
Proof.
  intros Hget Hstatus Hbad result local_path. subst result.
  unfold _download_image. rewrite Hget, Hstatus. cbn [Z.eqb Pos.eqb].
  unfold mbind, M_bind, mret, M_ret, read_time, write_file.
  cbn [dirs files ticks extracted_images]. fold (stored_path W images_dir platform index response (ticks st)).
  fold local_path.
  destruct (decide (path_join images_dir platform ∈ dirs st)) as [Hdir | Hdir].
  - unfold open_image. cbn [files]. rewrite lookup_insert_eq.
    assert (Hfiles : delete local_path (<[local_path := Bytes (content response)]> (files st))
                     = delete local_path (files st)) by apply delete_insert_eq.
    assert (Hsub : forall p f, delete local_path (files st) !! p = Some f ->
                               files st !! p = Some f).
    { intros p f Hp. apply lookup_delete_Some in Hp. tauto. }
    destruct (pil_open W (content response)) as [img | ] eqn:Himg.
    + rewrite (Hbad img eq_refl). unfold remove_file. cbn [fst snd files]. rewrite Hfiles.
      split; [reflexivity | split; [ | split; [tauto | exact Hsub] ] ].
      intros _. split; [reflexivity | apply lookup_delete_eq].
    + unfold remove_file. cbn [fst snd files]. rewrite Hfiles.
      split; [reflexivity | split; [ | split; [tauto | exact Hsub] ] ].
      intros _. split; [reflexivity | apply lookup_delete_eq].
  - cbn [fst snd files].
    split; [reflexivity | split; [tauto | split; [reflexivity | tauto] ] ].
Qed.

End Materializer.

Lemma C8_download_rejects_witness :
  let st := initial_state "viral_images" in
  let small := _download_image (demo_world []) "viral_images" small_url "instagram" "s1" 3 st in
  let broken := _download_image (demo_world []) "viral_images" broken_url "instagram" "s1" 4 st in
  (fst small = None
   /\ files (snd small) !! "viral_images/instagram/instagram_viral_3_1700000000.png" = None
   /\ files (snd small) = ∅)
  /\ (fst broken = None
      /\ files (snd broken) !! "viral_images/instagram/instagram_viral_4_1700000000.webp" = None).
Proof.
  intros st small broken.
  assert (Hdir : path_join "viral_images" "instagram" ∈ dirs st) by (vm_compute; reflexivity).
  split.
  - destruct (C8_download_rejects (demo_world []) "viral_images" small_url "instagram" "s1" 3 st
                {| status_code := 200; header_content_type := Some "image/png";
                   content := [Byte.x03] |})
      as (Hnone & Hdel & _ & _).
    + reflexivity.
    + reflexivity.
    + intros img [= <-]. reflexivity.
    + destruct (Hdel Hdir) as [Hfiles Hgone].
      split; [exact Hnone | split; [exact Hgone | ] ].
      fold small in Hfiles. rewrite Hfiles. apply delete_empty.
  - destruct (C8_download_rejects (demo_world []) "viral_images" broken_url "instagram" "s1" 4 st
                {| status_code := 200; header_content_type := Some "image/webp";
                   content := [Byte.x04] |})
      as (Hnone & Hdel & _ & _).
    + reflexivity.
    + reflexivity.
    + intros img [=].
    + destruct (Hdel Hdir) as [_ Hgone]. split; [exact Hnone | exact Hgone].
Defined.

(** ** The dimension floor on the collection paths *)

(** The YouTube path keeps whatever the first fetched thumbnail decodes
    to: when the first thumbnail URL is answered with status 200 and the
    YouTube directory exists, the record is built with the size
    [_get_image_info] reports, [(0, 0)] for a body that does not decode,
    without any comparison with the floor. *)
Lemma youtube_thumbnail_size_unchecked (W : World) (images_dir session_id : string)
    (video_data : Video) (st : State) (response : Response) :
  http_get W ("https://img.youtube.com/vi/" ++ v_id video_data ++ "/maxresdefault.jpg")
    = Some response ->
  status_code response = 200%Z ->
  path_join images_dir "youtube" ∈ dirs st ->
  exists record,
    fst (_download_youtube_thumbnail W images_dir video_data session_id st) = Some record
    /\ image_size record = match pil_open W (content response) with
                           | Some img => img_size img
                           | None => (0, 0)
                           end.
Proof.
  intros Hget Hstatus Hdir.
  unfold _download_youtube_thumbnail, thumbnail_urls_of. cbn [thumbnail_loop].
  rewrite Hget, Hstatus. cbn [Z.eqb Pos.eqb].
  cbv beta iota zeta delta [mbind M_bind mret M_ret read_time write_file].
  cbn [dirs files ticks extracted_images].
  destruct (decide (path_join images_dir "youtube" ∈ dirs st)) as [_ | Hno];
    [ | contradiction ].
  cbv beta iota zeta delta [mbind M_bind mret M_ret _get_image_info open_image read_now].
  cbn [dirs files ticks extracted_images]. rewrite lookup_insert_eq.
  eexists. split; [reflexivity | ].
  cbn [image_size fst]. destruct (pil_open W (content response)); reflexivity.
Qed.

(** C3 (the code at the failing input): a video whose medium-quality
    thumbnail (320x180) is the first that can be fetched. The YouTube path
    stores the body and builds the record without looking at the size, and
    the record reaches the final result set with a height below 200. *)
Theorem C3_youtube_thumbnail_below_floor :
  let result :=
    extract_viral_images (demo_world []) "viral_images" "q" "s1" (initial_state "viral_images") in
  map (fun r => (platform r, content_type r, image_size r)) (fst result)
    = [ ("YouTube", "thumbnail", (320, 180)) ]
  /\ ~ Forall (fun r => meets_floor (image_size r)) (fst result)
  /\ is_Some (files (snd result)
                !! "viral_images/youtube/youtube_thumbnail_dQw4w9WgXcQ_1700000000.jpg").
Proof.
  split; [vm_compute; reflexivity | split ].
  - intros Hall. apply List.Forall_forall with (x := hd (sample "" 0) (fst (extract_viral_images
         (demo_world []) "viral_images" "q" "s1" (initial_state "viral_images")))) in Hall.
    + vm_compute in Hall. destruct Hall as [_ Hh]. apply Hh. reflexivity.
    + vm_compute. left. reflexivity.
  - vm_compute. eexists. reflexivity.
Qed.

(** ** The metric synthesizer *)

Lemma multiplier_of_default (category : string) :
  ~ In category ["news"; "commercial"; "instagram"; "facebook"; "youtube"] ->
  multiplier_of category = 1000.
Proof.
  intros Hnot. unfold multiplier_of, base_multiplier. cbn [assoc_get].
  repeat match goal with
         | |- context [ String.eqb category ?k ] =>
             destruct (String.eqb_spec category k) as [-> | _];
             [ exfalso; apply Hnot; cbn [In]; tauto | ]
         end.
  reflexivity.
Qed.

Lemma metrics_lookup (category : string) (index : Z) (key : string) :
  _generate_realistic_metrics category index !! key
  = if String.eqb key "likes" then Some (multiplier_of category + index * 100)
    else if String.eqb key "comments" then Some (multiplier_of category / 10 + index * 10)
    else if String.eqb key "shares" then Some (multiplier_of category / 20 + index * 5)
    else if String.eqb key "views" then Some (multiplier_of category * 5 + index * 500)
    else None.
Proof.
  unfold _generate_realistic_metrics.
  repeat match goal with
         | |- context [ String.eqb key ?k ] =>
             destruct (String.eqb_spec key k) as [-> | ?]
         end;
    repeat first [ rewrite lookup_insert_eq | rewrite lookup_insert_ne by congruence
                 | rewrite lookup_singleton_eq | rewrite lookup_singleton_ne by congruence
                 | rewrite lookup_empty ];
    reflexivity.
Qed.

(** C9: the synthesizer is a function of [(category, index)] alone; the
    base is 1000 for news, 500 for commercial, 2000 for instagram, 1500 for
    facebook, 10000 for youtube and 1000 for any other category; every
    metric is a value fixed by the base plus a positive multiple of the
    index, hence strictly increasing with the index. *)
Theorem C9_synthesizer_base_plus_linear :
  (multiplier_of "news" = 1000 /\ multiplier_of "commercial" = 500
   /\ multiplier_of "instagram" = 2000 /\ multiplier_of "facebook" = 1500
   /\ multiplier_of "youtube" = 10000
   /\ forall category,
        ~ In category ["news"; "commercial"; "instagram"; "facebook"; "youtube"] ->
        multiplier_of category = 1000)
  /\ (forall category category' index index',
        category = category' -> index = index' ->
        _generate_realistic_metrics category index
        = _generate_realistic_metrics category' index')
  /\ (forall category index,
        let base := multiplier_of category in
        let metrics := _generate_realistic_metrics category index in
        metrics !! "likes" = Some (base + 100 * index)
        /\ metrics !! "comments" = Some (base / 10 + 10 * index)
        /\ metrics !! "shares" = Some (base / 20 + 5 * index)
        /\ metrics !! "views" = Some (5 * base + 500 * index)
        /\ forall key, is_Some (metrics !! key) ->
                       In key ["likes"; "comments"; "shares"; "views"])
  /\ (forall category i j key v w,
        i < j ->
        _generate_realistic_metrics category i !! key = Some v ->
        _generate_realistic_metrics category j !! key = Some w ->
        v < w).
Proof.
  split; [ | split; [ | split ] ].
  - repeat (split; [reflexivity | ]). apply multiplier_of_default.
  - intros category category' index index' -> ->. reflexivity.
  - intros category index base metrics. subst metrics.
    rewrite !metrics_lookup. cbn [String.eqb Ascii.eqb Bool.eqb].
    repeat (split; [f_equal; subst base; lia | ]).
    intros key [v Hv]. rewrite metrics_lookup in Hv.
    repeat match type of Hv with
           | context [ String.eqb key ?k ] =>
               destruct (String.eqb_spec key k) as [-> | ?]; [cbn [In]; tauto | ]
           end.
    discriminate.
  - intros category i j key v w Hij Hv Hw. rewrite metrics_lookup in Hv, Hw.
    repeat match type of Hv with
           | context [ String.eqb key ?k ] => destruct (String.eqb key k)
           end;
      try discriminate; injection Hv as <-; injection Hw as <-; lia.
Qed.

Lemma C9_synthesizer_base_plus_linear_witness :
  _generate_realistic_metrics "youtube" 2 = _generate_realistic_metrics "youtube" 2
  /\ (10000 + 100 * 2 < 10000 + 100 * 3).
Proof.
  destruct C9_synthesizer_base_plus_linear as (_ & Hdet & Hval & Hmono).
  split.
  - apply Hdet; reflexivity.
  - apply (Hmono "youtube" 2 3 "likes").
    + lia.
    + apply (Hval "youtube" 2).
    + apply (Hval "youtube" 3).
Defined.

(** ** The URL filter *)

Lemma append_cons (c : ascii) (a b : string) : String c a ++ b = String c (a ++ b).
Proof. reflexivity. Qed.

Lemma append_nil (b : string) : "" ++ b = b.
Proof. reflexivity. Qed.

Lemma prefix_spec (p s : string) :
  String.prefix p s = true <-> exists post, s = p ++ post.
Proof.
  revert s. induction p as [ | c p IH]; intros s; cbn [String.prefix].
  - split; [intros _; exists s; reflexivity | intros _; destruct s; reflexivity].
  - destruct s as [ | d s]; [split; [discriminate | intros [post [=]]] | ].
    cbn [String.prefix]. destruct (Ascii.ascii_dec c d) as [<- | Hne].
    + rewrite IH. split; intros [post Hpost]; exists post.
      * rewrite append_cons. f_equal. exact Hpost.
      * rewrite append_cons in Hpost. injection Hpost as ->. reflexivity.
    + split; [discriminate | intros [post Hpost]]. rewrite append_cons in Hpost.
      injection Hpost as -> _. contradiction.
Qed.

Lemma contains_spec (p s : string) :
  Py.contains p s = true <-> exists pre post, s = pre ++ p ++ post.
Proof.
  induction s as [ | c s IH]; cbn [Py.contains]; rewrite orb_true_iff, prefix_spec.
  - split.
    + intros [[post Hpost] | Hf]; [exists "", post; exact Hpost | discriminate].
    + intros (pre & post & Heq). left. destruct pre; [exists post; exact Heq | discriminate].
  - rewrite IH. split.
    + intros [[post Hpost] | (pre & post & Heq)].
      * exists "", post. exact Hpost.
      * exists (String c pre), post. rewrite append_cons. f_equal. exact Heq.
    + intros (pre & post & Heq). destruct pre as [ | d pre].
      * left. exists post. exact Heq.
      * right. rewrite append_cons in Heq. injection Heq as _ ->. exists pre, post. reflexivity.
Qed.

Lemma lower_app (a b : string) : Py.lower (a ++ b) = Py.lower a ++ Py.lower b.
Proof.
  induction a as [ | c a IH]; [reflexivity | ].
  rewrite append_cons. cbn [Py.lower]. rewrite IH. reflexivity.
Qed.

Lemma lower_split (s a b : string) :
  Py.lower s = a ++ b ->
  exists s1 s2, s = s1 ++ s2 /\ Py.lower s1 = a /\ Py.lower s2 = b.
Proof.
  revert s. induction a as [ | c a IH]; intros s Heq.
  - exists "", s. auto.
  - destruct s as [ | d s]; [discriminate | ].
    rewrite append_cons in Heq. cbn [Py.lower] in Heq. injection Heq as Hc Hrest.
    destruct (IH s Hrest) as (s1 & s2 & -> & H1 & H2).
    exists (String d s1), s2. cbn [Py.lower]. rewrite Hc, H1. auto.
Qed.

Lemma contains_lower_spec (p s : string) :
  Py.contains p (Py.lower s) = true <-> occurs_ci p s.
Proof.
  rewrite contains_spec. unfold occurs_ci. split.
  - intros (pre & post & Heq).
    apply lower_split in Heq. destruct Heq as (s1 & s' & -> & H1 & Heq).
    apply lower_split in Heq. destruct Heq as (s2 & s3 & -> & H2 & H3).
    exists s1, s2, s3. auto.
  - intros (pre & mid & post & -> & Hmid).
    exists (Py.lower pre), (Py.lower post). rewrite !lower_app, Hmid. reflexivity.
Qed.

Lemma existsb_occurs (patterns : list string) (url : string) :
  existsb (fun pattern => Py.contains pattern (Py.lower url)) patterns = true
  <-> exists p, In p patterns /\ occurs_ci p url.
Proof.
  rewrite existsb_exists. split; intros (p & Hin & Hp); exists p; split; try exact Hin;
    apply contains_lower_spec; exact Hp.
Qed.

(** C10: the filter answers [False] for a URL that is empty, shorter than
    10 characters, or contains, up to the case of letters, one of the
    invalid patterns; for any other URL it answers [True] exactly when the
    URL contains, again up to the case of letters, one of the valid
    patterns; in particular it answers [True] when the URL contains one of
    them as it is written. *)
Theorem C10_url_filter (url : string) :
  let rejected :=
    url = "" \/ (String.length url < 10)%nat
    \/ exists p, In p ["data:image"; "base64"; "svg"; "icon"; "logo"; "avatar"; "profile"]
                 /\ occurs_ci p url in
  let accepted :=
    exists p, In p [".jpg"; ".jpeg"; ".png"; ".webp"; "scontent"; "fbcdn"; "instagram"; "youtube"]
              /\ occurs_ci p url in
  (rejected -> _is_valid_image_url url = false)
  /\ (~ rejected -> (_is_valid_image_url url = true <-> accepted))
  /\ (~ rejected ->
      (exists p pre post,
          In p [".jpg"; ".jpeg"; ".png"; ".webp"; "scontent"; "fbcdn"; "instagram"; "youtube"]
          /\ url = pre ++ p ++ post) ->
      _is_valid_image_url url = true).
Proof.
  intros rejected accepted.
  enough (Hmain : (rejected -> _is_valid_image_url url = false)
                  /\ (~ rejected -> (_is_valid_image_url url = true <-> accepted))).
  { destruct Hmain as [Hrej Hacc]. split; [exact Hrej | split; [exact Hacc | ] ].
    intros Hn (p & pre & post & Hin & ->). apply (Hacc Hn).
    exists p. split; [exact Hin | ]. exists pre, p, post. split; [reflexivity | ].
    cbn [In] in Hin.
    repeat (destruct Hin as [<- | Hin]; [reflexivity | ]). contradiction. }
  unfold _is_valid_image_url.
  destruct (String.eqb_spec url "") as [-> | Hne].
  { cbn. split; [reflexivity | intros Hn; exfalso; apply Hn; left; reflexivity]. }
  cbn [orb].
  destruct (Nat.ltb_spec (String.length url) 10) as [Hshort | Hlong].
  { split; [reflexivity | intros Hn; exfalso; apply Hn; right; left; exact Hshort]. }
  destruct (existsb (fun pattern => Py.contains pattern (Py.lower url)) invalid_patterns)
    eqn:Hinv.
  { apply existsb_occurs in Hinv.
    split; [reflexivity | intros Hn; exfalso; apply Hn; right; right; exact Hinv]. }
  split.
  - intros [Hempty | [Hshort | Hbad]].
    + contradiction.
    + lia.
    + apply existsb_occurs in Hbad. unfold invalid_patterns in Hinv. congruence.
  - intros _. apply existsb_occurs.
Qed.

Lemma C10_url_filter_witness :
  _is_valid_image_url "https://example.com/Logo.jpg" = false
  /\ _is_valid_image_url "https://example.com/PHOTO.JPG" = true
  /\ _is_valid_image_url "https://example.com/photo.png" = true.
Proof.
  assert (Hnot : forall url,
             (String.length url <? 10)%nat = false ->
             existsb (fun p => Py.contains p (Py.lower url)) invalid_patterns = false ->
             ~ (url = "" \/ (String.length url < 10)%nat
                \/ exists p, In p ["data:image"; "base64"; "svg"; "icon"; "logo"; "avatar"; "profile"]
                             /\ occurs_ci p url)).
  { intros url Hlen Hinv [-> | [Hshort | Hbad]].
    - discriminate Hlen.
    - apply Nat.ltb_ge in Hlen. lia.
    - apply existsb_occurs in Hbad. unfold invalid_patterns in Hinv. congruence. }
  split; [ | split ].
  - destruct (C10_url_filter "https://example.com/Logo.jpg") as (Hrej & _ & _).
    apply Hrej. right. right. exists "logo". split; [cbn; tauto | ].
    exists "https://example.com/", "Logo", ".jpg". split; reflexivity.
  - destruct (C10_url_filter "https://example.com/PHOTO.JPG") as (_ & Hacc & _).
    apply Hacc.
    + apply Hnot; vm_compute; reflexivity.
    + exists ".jpg". split; [cbn; tauto | ].
      exists "https://example.com/PHOTO", ".JPG", "". split; reflexivity.
  - destruct (C10_url_filter "https://example.com/photo.png") as (_ & _ & Hlit).
    apply Hlit.
    + apply Hnot; vm_compute; reflexivity.
    + exists ".png", "https://example.com/photo", "". split; [cbn; tauto | reflexivity].
Defined.

(** ** Hashtag extraction *)

Lemma string_of_list_ascii_app (l1 l2 : list ascii) :
  string_of_list_ascii (l1 ++ l2)%list
  = string_of_list_ascii l1 ++ string_of_list_ascii l2.
Proof.
  induction l1 as [ | c l1 IH]; [reflexivity | ].
  cbn [app string_of_list_ascii]. rewrite append_cons, IH. reflexivity.
Qed.

Lemma append_assoc (a b c : string) : (a ++ b) ++ c = a ++ (b ++ c).
Proof.
  induction a as [ | x a IH]; [reflexivity | ].
  rewrite !append_cons, IH. reflexivity.
Qed.

Lemma all_word_app (a b : string) :
  all_word (a ++ b) = (all_word a && all_word b)%bool.
Proof.
  induction a as [ | c a IH]; [reflexivity | ].
  rewrite append_cons. cbn [all_word]. rewrite IH. apply andb_assoc.
Qed.

Lemma run_cons (c : ascii) (w : list ascii) : run (c :: w) = run w ++ String c "".
Proof. unfold run. cbn [rev]. apply string_of_list_ascii_app. Qed.

Lemma run_nonempty (c : ascii) (w : list ascii) : run (c :: w) <> "".
Proof. rewrite run_cons. destruct (run w); discriminate. Qed.

Lemma hash_is_not_word : Py.is_word "#" = false.
Proof. reflexivity. Qed.

Lemma findall_hashtags_acc (text : string) (cur : option (list ascii)) (acc : list string) :
  findall_hashtags text cur acc = (rev acc ++ findall_hashtags text cur [])%list.
Proof.
  revert cur acc. induction text as [ | c text IH]; intros cur acc; cbn [findall_hashtags].
  - destruct cur as [[ | a w] | ]; cbn [emit rev app]; rewrite ?app_nil_r; reflexivity.
  - destruct (Py.is_word c); [apply IH | ].
    assert (Hemit : forall cur', findall_hashtags text cur' (emit cur acc)
                      = (rev acc ++ findall_hashtags text cur' (emit cur []))%list).
    { intros cur'. destruct cur as [[ | a w] | ]; cbn [emit]; try apply IH.
      rewrite (IH cur' (_ :: acc)), (IH cur' [_]). cbn [rev app].
      rewrite <- app_assoc. reflexivity. }
    destruct (Ascii.eqb c "#"); apply Hemit.
Qed.

(** What the scanner returns once the pending run [w] is closed in front
    of a text [s] that does not go on with a word character. *)
Lemma matches_close (w : list ascii) (s : string) (ts : list string) :
  all_word (run w) = true -> starts_word s = false -> Matches s ts ->
  Matches (String "#" (run w ++ s)) (rev (emit (Some w) []) ++ ts)%list.
Proof.
  intros Hw Hs Hm. destruct w as [ | a w].
  - cbn [emit rev app]. change (run []) with "". rewrite append_nil.
    apply matches_skip; [right; exact Hs | exact Hm].
  - cbn [emit rev app]. fold (run (a :: w)).
    apply matches_tag; [apply run_nonempty | exact Hw | exact Hs | exact Hm].
Qed.

Lemma findall_hashtags_matches (text : string) :
  Matches text (findall_hashtags text None [])
  /\ forall w : list ascii,
       all_word (run w) = true ->
       Matches (String "#" (run w ++ text)) (findall_hashtags text (Some w) []).
Proof.
  induction text as [ | c text [IHnone IHsome]].
  - split; [constructor | ].
    intros w Hw. cbn [findall_hashtags].
    rewrite <- (app_nil_r (rev (emit (Some w) []))).
    apply matches_close; [exact Hw | reflexivity | constructor].
  - cbn [findall_hashtags option_map]. destruct (Py.is_word c) eqn:Hc.
    + split.
      * apply matches_skip; [ | exact IHnone].
        left. intros ->. rewrite hash_is_not_word in Hc. discriminate.
      * intros w Hw.
        replace (run w ++ String c text) with (run (c :: w) ++ text)
          by (rewrite run_cons, append_assoc; reflexivity).
        apply IHsome. rewrite run_cons, all_word_app, Hw. cbn [all_word].
        rewrite Hc. reflexivity.
    + assert (Hstart : starts_word (String c text) = false) by exact Hc.
      destruct (Ascii.eqb_spec c "#") as [-> | Hne].
      * assert (Hrest : Matches (String "#" text) (findall_hashtags text (Some []) [])).
        { apply (IHsome []). reflexivity. }
        split; [exact Hrest | ].
        intros w Hw. rewrite findall_hashtags_acc.
        apply matches_close; assumption.
      * assert (Hrest : Matches (String c text) (findall_hashtags text None [])).
        { apply matches_skip; [left; exact Hne | exact IHnone]. }
        split; [exact Hrest | ].
        intros w Hw. rewrite findall_hashtags_acc.
        apply matches_close; assumption.
Qed.

Lemma matches_are_hashtags (text : string) (ts : list string) :
  Matches text ts -> Forall is_hashtag ts.
Proof.
  induction 1 as [ | c s ts _ _ IH | w s ts Hne Hw _ _ IH].
  - constructor.
  - exact IH.
  - constructor; [exists w; auto | exact IH].
Qed.

Lemma all_word_starts (w s : string) :
  w <> "" -> all_word w = true -> starts_word (w ++ s) = true.
Proof.
  destruct w as [ | c w]; [congruence | ].
  intros _ Hw. cbn [all_word] in Hw. apply andb_true_iff in Hw.
  rewrite append_cons. exact (proj1 Hw).
Qed.

(** A text has one longest run of word characters at its start. *)
Lemma word_run_unique (w1 w2 s1 s2 : string) :
  all_word w1 = true -> all_word w2 = true ->
  starts_word s1 = false -> starts_word s2 = false ->
  w1 ++ s1 = w2 ++ s2 -> w1 = w2 /\ s1 = s2.
Proof.
  revert w2. induction w1 as [ | c w1 IH]; intros [ | d w2] H1 H2 Hs1 Hs2 Heq.
  - rewrite !append_nil in Heq. auto.
  - rewrite append_nil, append_cons in Heq. subst s1.
    cbn [all_word] in H2. apply andb_true_iff in H2. cbn [starts_word] in Hs1.
    destruct H2 as [H2 _]. congruence.
  - rewrite append_nil, append_cons in Heq. subst s2.
    cbn [all_word] in H1. apply andb_true_iff in H1. cbn [starts_word] in Hs2.
    destruct H1 as [H1 _]. congruence.
  - rewrite !append_cons in Heq. injection Heq as -> Heq.
    cbn [all_word] in H1, H2. apply andb_true_iff in H1, H2.
    destruct (IH w2 (proj2 H1) (proj2 H2) Hs1 Hs2 Heq) as [-> ->]. auto.
Qed.

(** The matches of a text are determined by the text: whatever way they
    are searched, leftmost first and longest, the list is the same. *)
Lemma matches_unique (text : string) (ts1 ts2 : list string) :
  Matches text ts1 -> Matches text ts2 -> ts1 = ts2.
Proof.
  intros H1. revert ts2.
  induction H1 as [ | c s ts Hskip _ IH | w s ts Hne Hw Hs _ IH]; intros ts2 H2.
  - inversion H2. reflexivity.
  - inversion H2 as [ | c' s' ts' _ Hm | w' s' ts' Hne' Hw' _ _]; subst.
    + apply IH. exact Hm.
    + exfalso. destruct Hskip as [Hc | Hst]; [congruence | ].
      rewrite (all_word_starts w' s' Hne' Hw') in Hst. discriminate.
  - inversion H2 as [ | c' s' ts' Hskip' _ | w' s' ts' Hne' Hw' Hs' Hm Heq]; subst.
    + exfalso. destruct Hskip' as [Hc | Hst]; [congruence | ].
      rewrite (all_word_starts w s Hne Hw) in Hst. discriminate.
    + destruct (word_run_unique w' w s' s Hw' Hw Hs' Hs Heq) as [-> ->].
      f_equal. apply IH. exact Hm.
Qed.

(** C7 (counterexample): a hashtag that occurs twice is returned twice. *)
Lemma C7_duplicates_are_kept :
  _extract_hashtags_from_text "#a #b #a" = ["#a"; "#b"; "#a"]
  /\ ~ List.NoDup (_extract_hashtags_from_text "#a #b #a").
Proof.
  split; [vm_compute; reflexivity | ].
  vm_compute. intros Hnd. inversion Hnd as [ | ? ? Hnotin _]; subst.
  apply Hnotin. cbn [In]. tauto.
Qed.

(** C7 (amended): for every text, hashtag extraction returns the first 10
    matches of ['#'] followed by word characters, in the order in which they
    occur in the text and with repetitions kept; each is a ['#'] with its
    longest run of word characters, and the text determines the list.
    ["Confira #promo #Brasil2024 agora!"] yields exactly
    [["#promo"; "#Brasil2024"]]. *)
Theorem C7_hashtags_in_order (text : string) :
  (exists all_matches,
      Matches text all_matches
      /\ (forall ts, Matches text ts -> ts = all_matches)
      /\ _extract_hashtags_from_text text = firstn 10 all_matches)
  /\ (length (_extract_hashtags_from_text text) <= 10)%nat
  /\ Forall is_hashtag (_extract_hashtags_from_text text)
  /\ _extract_hashtags_from_text "Confira #promo #Brasil2024 agora!"
     = ["#promo"; "#Brasil2024"].
Proof.
  pose proof (proj1 (findall_hashtags_matches text)) as Hm.
  assert (Heq : _extract_hashtags_from_text text
                = firstn 10 (findall_hashtags text None [])) by reflexivity.
  split.
  { exists (findall_hashtags text None []).
    split; [exact Hm | split; [ | exact Heq] ].
    intros ts Hts. exact (matches_unique text ts _ Hts Hm). }
  split; [rewrite Heq; apply firstn_le_length | split ].
  - rewrite Heq. apply matches_are_hashtags in Hm.
    rewrite List.Forall_forall in Hm |- *. intros t Ht.
    apply Hm. rewrite <- (firstn_skipn 10 (findall_hashtags text None [])).
    apply in_or_app. left. exact Ht.
  - vm_compute. reflexivity.
Qed.

Lemma C7_hashtags_in_order_witness :
  Matches "#a b" ["#a"] /\ _extract_hashtags_from_text "#a b" = ["#a"].
Proof.
  destruct (C7_hashtags_in_order "#a b") as ((all_matches & _ & Hunique & Hfirst) & _).
  assert (Hm : Matches "#a b" ["#a"]).
  { apply (matches_tag "a" " b" []); [discriminate | reflexivity | reflexivity | ].
    apply matches_skip; [left; discriminate | ].
    apply matches_skip; [left; discriminate | ].
    apply matches_end. }
  split; [exact Hm | ].
  rewrite Hfirst, <- (Hunique _ Hm). reflexivity.
Defined.

(** * Further properties *)

(** ** The scorer and its weight tables *)

Lemma score_loop_insert_unweighted (metrics : gmap string value) (key : string) (v : value)
    (items : list (string * float)) (acc : float * float) :
  ~ In key (map fst items) ->
  score_loop (<[key := v]> metrics) acc items = score_loop metrics acc items.
Proof.
  revert acc. induction items as [ | [metric weight] items IH]; intros acc Hnot.
  - reflexivity.
  - cbn [map fst In] in Hnot. cbn [score_loop]. unfold score_step.
    destruct acc as [score total].
    rewrite lookup_insert_ne by (intros ->; apply Hnot; left; reflexivity).
    destruct (metrics !! metric) as [v' | ]; cbn [mbind option_bind].
    + destruct (normalized_value v'); cbn [mbind option_bind]; [ | reflexivity ].
      apply IH. intros Hin. apply Hnot. right. exact Hin.
    + apply IH. intros Hin. apply Hnot. right. exact Hin.
Qed.

(** X1: a metric outside the platform's weight table has no influence on
    the score: storing any value under such a name leaves the result
    unchanged. *)
Theorem X1_unweighted_metric_is_ignored
    (metrics : gmap string value) (platform key : string) (v : value) :
  ~ In key (weighted_metrics platform) ->
  _calculate_image_virality_score (<[key := v]> metrics) platform
  = _calculate_image_virality_score metrics platform.
Proof.
  intros Hnot. unfold _calculate_image_virality_score, score_body.
  rewrite (score_loop_insert_unweighted metrics key v _ _ Hnot). reflexivity.
Qed.

Lemma X1_unweighted_metric_is_ignored_witness :
  _calculate_image_virality_score
    (<["reactions" := VStr "many"]> {[ "likes" := VInt 800; "shares" := VInt 30 ]}) "facebook"
  = _calculate_image_virality_score {[ "likes" := VInt 800; "shares" := VInt 30 ]} "facebook".
Proof.
  apply (X1_unweighted_metric_is_ignored _ "facebook" "reactions").
  vm_compute. intros [H | [H | [H | []]]]; discriminate H.
Defined.

Lemma platform_weights_of_unknown (platform : string) :
  ~ In platform ["instagram"; "facebook"; "youtube"; "news"; "commercial"] ->
  platform_weights_of platform = platform_weights_of "instagram".
Proof.
  intros Hnot. unfold platform_weights_of, weights. cbn [assoc_get].
  repeat match goal with
         | |- context [ String.eqb platform ?k ] =>
             destruct (String.eqb_spec platform k) as [-> | _];
             [ exfalso; apply Hnot; cbn [In]; tauto | ]
         end.
  reflexivity.
Qed.

(** X2: a platform name that is none of the five table keys (a capitalised
    ["Instagram"], for one) is scored with the Instagram weights. *)
Theorem X2_unknown_platform_scored_as_instagram
    (metrics : gmap string value) (platform : string) :
  ~ In platform ["instagram"; "facebook"; "youtube"; "news"; "commercial"] ->
  _calculate_image_virality_score metrics platform
  = _calculate_image_virality_score metrics "instagram".
Proof.
  intros Hnot. unfold _calculate_image_virality_score, score_body.
  rewrite (platform_weights_of_unknown platform Hnot). reflexivity.
Qed.

Lemma X2_unknown_platform_scored_as_instagram_witness :
  _calculate_image_virality_score {[ "likes" := VInt 1500; "views" := VInt 9 ]} "Instagram"
  = _calculate_image_virality_score {[ "likes" := VInt 1500; "views" := VInt 9 ]} "instagram".
Proof.
  apply (X2_unknown_platform_scored_as_instagram _ "Instagram").
  cbn [In]. intros [H | [H | [H | [H | [H | []]]]]]; discriminate H.
Defined.

Lemma score_loop_failure (metrics : gmap string value) (key : string) (v : value)
    (items : list (string * float)) (acc : float * float) :
  In key (map fst items) ->
  metrics !! key = Some v -> normalized_value v = None ->
  score_loop metrics acc items = None.
Proof.
  intros Hin Hkey Hbad. revert acc.
  induction items as [ | [metric weight] items IH]; intros acc; [destruct Hin | ].
  cbn [score_loop]. unfold score_step. destruct acc as [score total].
  destruct (String.eqb_spec metric key) as [-> | Hne].
  - rewrite Hkey. cbn [mbind option_bind]. rewrite Hbad. reflexivity.
  - destruct Hin as [Heq | Hin]; [cbn [fst] in Heq; congruence | ].
    destruct (metrics !! metric) as [v' | ]; cbn [mbind option_bind].
    + destruct (normalized_value v'); cbn [mbind option_bind]; [ | reflexivity ].
      apply IH. exact Hin.
    + apply IH. exact Hin.
Qed.

(** X3: one weighted metric whose value cannot be normalised (a string, a
    negative count, a count beyond the float range) makes the scorer return
    the default 50.0, whatever the other metrics are. *)
Theorem X3_one_bad_metric_gives_default
    (metrics : gmap string value) (platform key : string) (v : value) :
  In key (weighted_metrics platform) ->
  metrics !! key = Some v ->
  normalized_value v = None ->
  _calculate_image_virality_score metrics platform = F64.of_int 50.
Proof.
  intros Hin Hkey Hbad. unfold _calculate_image_virality_score, score_body.
  rewrite (score_loop_failure metrics key v _ _ Hin Hkey Hbad). reflexivity.
Qed.

Lemma X3_one_bad_metric_gives_default_witness :
  _calculate_image_virality_score
    {[ "views" := VInt 50000; "likes" := VInt (-1); "comments" := VInt 500 ]} "youtube"
  = F64.of_int 50
  /\ _calculate_image_virality_score
       {[ "views" := VInt (10 ^ 400); "shares" := VInt 3 ]} "news"
     = F64.of_int 50.
Proof.
  split.
  - apply (X3_one_bad_metric_gives_default _ "youtube" "likes" (VInt (-1)));
      vm_compute; auto.
  - apply (X3_one_bad_metric_gives_default _ "news" "views" (VInt (10 ^ 400)));
      vm_compute; auto.
Defined.

(** ** YouTube video identifiers *)

Lemma take_id_spec (n : nat) (s id : string) :
  take_id n s = Some id ->
  String.length id = n
  /\ forallb is_id_char (list_ascii_of_string id) = true
  /\ exists post, s = id ++ post.
Proof.
  revert s id. induction n as [ | n IH]; intros s id; cbn [take_id].
  - intros [= <-]. split; [reflexivity | split; [reflexivity | exists s; reflexivity] ].
  - destruct s as [ | c s]; [discriminate | ].
    destruct (is_id_char c) eqn:Hc; [ | discriminate ].
    destruct (take_id n s) as [id' | ] eqn:Hid; [ | discriminate ].
    cbn [fmap option_fmap option_map]. intros [= <-].
    destruct (IH s id' Hid) as (Hlen & Hall & post & ->).
    split; [cbn [String.length]; f_equal; exact Hlen | split ].
    + cbn [list_ascii_of_string forallb]. rewrite Hc, Hall. reflexivity.
    + exists post. reflexivity.
Qed.

Lemma string_drop_append (a b : string) : string_drop (String.length a) (a ++ b) = b.
Proof.
  induction a as [ | c a IH]; [destruct b; reflexivity | ].
  rewrite append_cons. cbn [String.length string_drop]. exact IH.
Qed.

Lemma match_here_spec (alts : list string) (s id : string) :
  match_here alts s = Some id ->
  is_video_id id /\ exists alt post, In alt alts /\ s = alt ++ id ++ post.
Proof.
  induction alts as [ | alt alts IH]; cbn [match_here]; [discriminate | ].
  destruct (String.prefix alt s) eqn:Hp.
  - destruct (take_id 11 (string_drop (String.length alt) s)) as [group | ] eqn:Hid.
    + intros [= <-]. apply prefix_spec in Hp. destruct Hp as [rest ->].
      rewrite string_drop_append in Hid.
      destruct (take_id_spec _ _ _ Hid) as (Hlen & Hall & post & ->).
      split; [split; assumption | ].
      exists alt, post. split; [left; reflexivity | reflexivity].
    + intros H. destruct (IH H) as (Hid' & alt' & post & Hin & Heq).
      split; [exact Hid' | exists alt', post; split; [right; exact Hin | exact Heq] ].
  - intros H. destruct (IH H) as (Hid' & alt' & post & Hin & Heq).
    split; [exact Hid' | exists alt', post; split; [right; exact Hin | exact Heq] ].
Qed.

Lemma re_search_spec (alts : list string) (s id : string) :
  re_search alts s = Some id ->
  is_video_id id /\ exists alt, In alt alts /\ occurs (alt ++ id) s.
Proof.
  induction s as [ | c s IH]; cbn [re_search].
  - destruct (match_here alts "") as [group | ] eqn:Hm; [ | discriminate ].
    intros [= <-]. destruct (match_here_spec _ _ _ Hm) as (Hid & alt & post & Hin & Heq).
    split; [exact Hid | ]. exists alt. split; [exact Hin | ].
    exists "", post. rewrite append_nil, append_assoc. exact Heq.
  - destruct (match_here alts (String c s)) as [group | ] eqn:Hm.
    + intros [= <-]. destruct (match_here_spec _ _ _ Hm) as (Hid & alt & post & Hin & Heq).
      split; [exact Hid | ]. exists alt. split; [exact Hin | ].
      exists "", post. rewrite append_nil, append_assoc. exact Heq.
    + intros H. destruct (IH H) as (Hid & alt & Hin & pre & post & ->).
      split; [exact Hid | ]. exists alt. split; [exact Hin | ].
      exists (String c pre), post. reflexivity.
Qed.

(** A search that fails has no match at any suffix. *)
Lemma re_search_none_suffix (alts : list string) (s t : string) :
  re_search alts s = None -> suffix_of t s -> match_here alts t = None.
Proof.
  intros Hnone Hsuf. induction Hsuf as [s | t c s Hsuf IH].
  - destruct s; cbn [re_search] in Hnone; destruct (match_here alts _); congruence.
  - apply IH. cbn [re_search] in Hnone.
    destruct (match_here alts (String c s)); [discriminate | exact Hnone].
Qed.

Lemma suffix_of_append (a s : string) : suffix_of s (a ++ s).
Proof.
  induction a as [ | c a IH]; [apply suffix_here | ].
  rewrite append_cons. apply suffix_later. exact IH.
Qed.

Lemma suffix_of_trans (a b c : string) : suffix_of a b -> suffix_of b c -> suffix_of a c.
Proof.
  intros Hab Hbc. induction Hbc as [ | b c' s _ IH]; [exact Hab | ].
  apply suffix_later. apply IH. exact Hab.
Qed.

(** A match of a pattern that ends in ['/'] contains a match of the
    alternative ['/'] of the first pattern. *)
Lemma slash_pattern_is_covered (lead s : string) :
  re_search ["v="; "/"] s = None -> re_search [lead ++ "/"] s = None.
Proof.
  intros Hnone.
  assert (Hall : forall t, suffix_of t s -> match_here [lead ++ "/"] t = None).
  { intros t Ht. cbn [match_here].
    destruct (String.prefix (lead ++ "/") t) eqn:Hp; [ | reflexivity ].
    destruct (take_id 11 (string_drop (String.length (lead ++ "/")) t)) as [id | ] eqn:Hid;
      [ | reflexivity ].
    exfalso. apply prefix_spec in Hp. destruct Hp as [rest ->].
    rewrite string_drop_append in Hid.
    assert (Hsuf : suffix_of ("/" ++ rest) s).
    { eapply suffix_of_trans; [ | exact Ht ].
      rewrite append_assoc. apply suffix_of_append. }
    pose proof (re_search_none_suffix _ _ _ Hnone Hsuf) as Hm.
    cbn [match_here] in Hm.
    replace (String.prefix "v=" ("/" ++ rest)) with false in Hm by reflexivity.
    replace (String.prefix "/" ("/" ++ rest)) with true in Hm
      by (symmetry; apply prefix_spec; exists rest; reflexivity).
    change (String.length "/") with 1%nat in Hm.
    change (string_drop 1 ("/" ++ rest)) with rest in Hm.
    rewrite Hid in Hm. discriminate. }
  clear Hnone. induction s as [ | c s IH]; cbn [re_search].
  - rewrite (Hall "" (suffix_here _)). reflexivity.
  - rewrite (Hall _ (suffix_here _)). apply IH.
    intros t Ht. apply Hall. apply suffix_later. exact Ht.
Qed.

Lemma later_patterns_fail (url : string) :
  re_search ["v="; "/"] url = None ->
  re_search ["embed/"] url = None /\ re_search ["v/"] url = None.
Proof.
  intros H1. split.
  - exact (slash_pattern_is_covered "embed" url H1).
  - exact (slash_pattern_is_covered "v" url H1).
Qed.

(** X4: an identifier returned by [_extract_youtube_id] has exactly eleven
    characters, all in [[0-9A-Za-z_-]], and stands in the URL right behind
    ["v="] or ["/"]. *)
Theorem X4_youtube_id_shape (url id : string) :
  _extract_youtube_id url = Some id ->
  is_video_id id /\ (occurs ("v=" ++ id) url \/ occurs ("/" ++ id) url).
Proof.
  unfold _extract_youtube_id.
  destruct (re_search ["v="; "/"] url) as [group | ] eqn:H1.
  - intros [= <-]. destruct (re_search_spec _ _ _ H1) as (Hid & alt & Hin & Hocc).
    split; [exact Hid | ]. cbn [In] in Hin.
    destruct Hin as [<- | [<- | []]]; [left | right]; exact Hocc.
  - destruct (later_patterns_fail url H1) as [-> ->]. discriminate.
Qed.

Lemma X4_youtube_id_shape_witness :
  is_video_id "dQw4w9WgXcQ"
  /\ (occurs ("v=" ++ "dQw4w9WgXcQ") "https://www.youtube.com/watch?v=dQw4w9WgXcQ&t=42"
      \/ occurs ("/" ++ "dQw4w9WgXcQ") "https://www.youtube.com/watch?v=dQw4w9WgXcQ&t=42").
Proof.
  apply (X4_youtube_id_shape "https://www.youtube.com/watch?v=dQw4w9WgXcQ&t=42").
  vm_compute. reflexivity.
Defined.

(** X5: the second and the third pattern of [_extract_youtube_id]
    ([embed/] and [v/] before the identifier) never decide: whenever one of
    them matches, the first pattern has matched already, so the result is
    that of the first pattern alone. *)
Theorem X5_youtube_id_first_pattern_decides (url : string) :
  _extract_youtube_id url = re_search ["v="; "/"] url.
Proof.
  unfold _extract_youtube_id.
  destruct (re_search ["v="; "/"] url) as [group | ] eqn:H1; [reflexivity | ].
  destruct (later_patterns_fail url H1) as [-> ->]. reflexivity.
Qed.

(** ** The YouTube search *)

Lemma extract_youtube_id_is_id (url id : string) :
  _extract_youtube_id url = Some id -> is_video_id id.
Proof.
  unfold _extract_youtube_id.
  destruct (re_search ["v="; "/"] url) as [g | ] eqn:H1;
    [intros [= <-]; exact (proj1 (re_search_spec _ _ _ H1)) | ].
  destruct (later_patterns_fail url H1) as [-> ->]. discriminate.
Qed.

Lemma videos_loop_spec (elements : list VideoElement) (i : Z) (videos : list Video) :
  exists new,
    videos_loop elements i videos = (videos ++ new)%list
    /\ (length new <= length elements)%nat
    /\ Forall (fun v => exists k, i <= k < i + Z.of_nat (length elements) /\ video_at k v) new.
Proof.
  revert i videos. induction elements as [ | el rest IH]; intros i videos.
  - exists []. cbn [videos_loop]. rewrite app_nil_r. repeat split; constructor.
  - assert (Hskip : exists new,
               videos_loop rest (i + 1) videos = (videos ++ new)%list
               /\ (length new <= length (el :: rest))%nat
               /\ Forall (fun v => exists k,
                            i <= k < i + Z.of_nat (length (el :: rest)) /\ video_at k v) new).
    { destruct (IH (i + 1) videos) as (new & Heq & Hlen & Hall).
      exists new. split; [exact Heq | split; [cbn [length]; lia | ] ].
      eapply List.Forall_impl; [ | exact Hall ].
      intros v (k & Hk & Hv). exists k. split; [cbn [length]; lia | exact Hv]. }
    cbn [videos_loop].
    destruct (el_href el) as [video_url | ]; [ | exact Hskip ].
    destruct (_extract_youtube_id video_url) as [video_id | ] eqn:Hid; [ | exact Hskip ].
    destruct (el_title el) as [title | ]; [ | exact Hskip ].
    destruct (IH (i + 1) (videos ++ [
      {| v_id := video_id; v_url := video_url; v_title := title;
         v_views := 50000 + i * 10000; v_likes := (50000 + i * 10000) / 20;
         v_comments := (50000 + i * 10000) / 100;
         v_thumbnail_url := "https://img.youtube.com/vi/" ++ video_id ++ "/maxresdefault.jpg" |}
      ])%list) as (new & Heq & Hlen & Hall).
    eexists (_ :: new). split; [rewrite Heq, <- app_assoc; reflexivity | ].
    split; [cbn [length]; lia | ].
    constructor.
    + exists i. split; [cbn [length]; lia | ].
      unfold video_at. cbn [v_id v_url v_views v_likes v_comments v_thumbnail_url].
      split; [exact (extract_youtube_id_is_id _ _ Hid) | ].
      repeat split; try reflexivity. exact Hid.
    + eapply List.Forall_impl; [ | exact Hall ].
      intros v (k & Hk & Hv). exists k. split; [cbn [length]; lia | exact Hv].
Qed.

Lemma scrape_youtube_videos_spec (W : World) (query : string) (limit : Z) :
  (0 <= limit)%Z ->
  (length (_scrape_youtube_videos W query limit) <= Z.to_nat limit)%nat
  /\ Forall (fun v => exists k, 0 <= k < limit /\ video_at k v)
            (_scrape_youtube_videos W query limit).
Proof.
  intros Hlimit. unfold _scrape_youtube_videos.
  destruct (youtube_results_page W _) as [video_elements | ];
    [ | split; [cbn [length]; lia | constructor] ].
  destruct (videos_loop_spec (slice_to limit video_elements) 0 []) as (new & Heq & Hlen & Hall).
  rewrite Heq. cbn [app].
  pose proof (slice_to_length limit video_elements Hlimit) as Hslice.
  split; [lia | ].
  eapply List.Forall_impl; [ | exact Hall ].
  intros v (k & Hk & Hv). exists k. split; [lia | exact Hv].
Qed.



(** ** The image materializer, case by case *)

Section MaterializerCases.

Variable W : World.
Variables images_dir img_url platform session_id : string.
Variable index : Z.

(** X7: [_download_image] returns a path exactly when the request is
    answered with status 200, the platform directory exists, and the body
    decodes to an image of at least 200 by 200 pixels; the path is then the
    one built from platform, index, clock reading and content type, and the
    file stored there is the body of the response. *)
Theorem X7_download_accepts (st : State) (path : string) :
  let result := _download_image W images_dir img_url platform session_id index st in
  (fst result = Some path <->
   exists response img,
     http_get W img_url = Some response
     /\ status_code response = 200%Z
     /\ path_join images_dir platform ∈ dirs st
     /\ pil_open W (content response) = Some img
     /\ meets_floor (img_size img)
     /\ path = stored_path W images_dir platform index response (ticks st))
  /\ (fst result = Some path ->
      exists response,
        http_get W img_url = Some response
        /\ files (snd result) = <[path := Bytes (content response)]> (files st)
        /\ ticks (snd result) = S (ticks st)).
Proof.
  cbv zeta. unfold _download_image.
  destruct (http_get W img_url) as [response | ] eqn:Hget.
  2: { cbn [mret M_ret fst]. split; [split | ]; try discriminate.
       intros (r & _ & H & _). discriminate H. }
  destruct (Z.eqb_spec (status_code response) 200) as [Hstatus | Hstatus].
  2: { cbn [mret M_ret fst]. split; [split | ]; try discriminate.
       intros (r & img & [= <-] & H & _). contradiction. }
  unfold mbind, M_bind, mret, M_ret, read_time, write_file.
  cbn [dirs files ticks extracted_images].
  fold (stored_path W images_dir platform index response (ticks st)).
  set (local_path := stored_path W images_dir platform index response (ticks st)).
  destruct (decide (path_join images_dir platform ∈ dirs st)) as [Hdir | Hdir].
  2: { cbn [fst]. split; [split | ]; try discriminate.
       intros (r & img & _ & _ & H & _). contradiction. }
  unfold open_image. cbn [files]. rewrite lookup_insert_eq.
  destruct (pil_open W (content response)) as [img | ] eqn:Himg.
  2: { unfold remove_file. cbn [fst]. split; [split | ]; try discriminate.
       intros (r & img & [= <-] & _ & _ & H & _). congruence. }
  destruct (size_ok img) eqn:Hok.
  - cbn [fst snd files ticks]. split; [split | ].
    + intros [= <-]. exists response, img.
      unfold size_ok in Hok. apply andb_true_iff in Hok. destruct Hok as [Hw Hh].
      apply Z.leb_le in Hw, Hh. unfold meets_floor. auto 10.
    + intros (r & img' & [= <-] & _ & _ & _ & _ & ->). reflexivity.
    + intros [= <-]. exists response. auto.
  - unfold remove_file. cbn [fst]. split; [split | ]; try discriminate.
    intros (r & img' & [= <-] & _ & _ & Himg' & [Hw Hh] & _).
    rewrite Himg in Himg'. injection Himg' as <-.
    unfold size_ok in Hok. apply andb_false_iff in Hok.
    destruct Hok as [Hok | Hok]; apply Z.leb_gt in Hok; lia.
Qed.

(** X8: whatever happens, [_download_image] creates no directory, leaves
    the extractor's result list alone, reads the clock at most once, and
    changes no file but the one at its own path; when the request raises or
    is not answered with status 200, the state is untouched. *)
Theorem X8_download_frame (st : State) :
  let result := _download_image W images_dir img_url platform session_id index st in
  dirs (snd result) = dirs st
  /\ extracted_images (snd result) = extracted_images st
  /\ (ticks st <= ticks (snd result) <= S (ticks st))%nat
  /\ (forall p,
        (forall response, http_get W img_url = Some response ->
                          p <> stored_path W images_dir platform index response (ticks st)) ->
        files (snd result) !! p = files st !! p)
  /\ ((forall response, http_get W img_url = Some response ->
                        status_code response <> 200%Z) ->
      result = (None, st)).
Proof.
  cbv zeta. unfold _download_image.
  destruct (http_get W img_url) as [response | ] eqn:Hget.
  2: { cbn [mret M_ret fst snd]. repeat split; try reflexivity; lia. }
  destruct (Z.eqb_spec (status_code response) 200) as [Hstatus | Hstatus].
  2: { cbn [mret M_ret fst snd]. repeat split; try reflexivity; lia. }
  unfold mbind, M_bind, mret, M_ret, read_time, write_file.
  cbn [dirs files ticks extracted_images].
  fold (stored_path W images_dir platform index response (ticks st)).
  set (local_path := stored_path W images_dir platform index response (ticks st)).
  assert (Hno : (forall r, Some response = Some r -> status_code r <> 200%Z) -> False).
  { intros H. exact (H response eq_refl Hstatus). }
  destruct (decide (path_join images_dir platform ∈ dirs st)) as [Hdir | Hdir].
  2: { cbn [fst snd dirs files ticks extracted_images].
       repeat split; try reflexivity; try lia. intros H. destruct (Hno H). }
  unfold open_image. cbn [files]. rewrite lookup_insert_eq.
  assert (Hkeep : forall p, (forall r, Some response = Some r ->
                     p <> stored_path W images_dir platform index r (ticks st)) ->
                   <[local_path := Bytes (content response)]> (files st) !! p = files st !! p).
  { intros p Hp. apply lookup_insert_ne. intros <-. exact (Hp response eq_refl eq_refl). }
  assert (Hgone : forall p, (forall r, Some response = Some r ->
                     p <> stored_path W images_dir platform index r (ticks st)) ->
                   delete local_path (<[local_path := Bytes (content response)]> (files st)) !! p
                   = files st !! p).
  { intros p Hp. rewrite lookup_delete_ne by (intros <-; exact (Hp response eq_refl eq_refl)).
    apply Hkeep. exact Hp. }
  destruct (pil_open W (content response)) as [img | ]; [destruct (size_ok img) | ];
    unfold remove_file; cbn [fst snd dirs files ticks extracted_images];
    (repeat split; try reflexivity; try lia; try assumption);
    intros H; destruct (Hno H).
Qed.

End MaterializerCases.

Lemma X7_download_accepts_witness :
  let st := initial_state "viral_images" in
  let result := _download_image (demo_world []) "viral_images" photo_url "instagram" "s1" 0 st in
  fst result = Some "viral_images/instagram/instagram_viral_0_1700000000.jpg"
  /\ files (snd result)
     = {[ "viral_images/instagram/instagram_viral_0_1700000000.jpg"
            := Bytes [Byte.x02; Byte.x02] ]}.
Proof.
  cbv zeta.
  destruct (X7_download_accepts (demo_world []) "viral_images" photo_url "instagram" "s1" 0
              (initial_state "viral_images")
              "viral_images/instagram/instagram_viral_0_1700000000.jpg") as [Hiff Hfile].
  assert (Hsome : fst (_download_image (demo_world []) "viral_images" photo_url "instagram"
                         "s1" 0 (initial_state "viral_images"))
                  = Some "viral_images/instagram/instagram_viral_0_1700000000.jpg").
  { apply Hiff.
    exists {| status_code := 200; header_content_type := Some "image/jpeg";
              content := [Byte.x02; Byte.x02] |},
           {| img_size := (640, 480); img_format := "JPEG" |}.
    repeat split; try reflexivity; vm_compute; congruence. }
  split; [exact Hsome | ].
  destruct (Hfile Hsome) as (response & Hget & Hfiles & _).
  rewrite Hfiles. injection Hget as <-. reflexivity.
Defined.

(** ** The image-search collectors *)

Lemma append_inj_l (a b c : string) : a ++ b = a ++ c -> b = c.
Proof.
  induction a as [ | x a IH]; [rewrite !append_nil; auto | ].
  rewrite !append_cons. intros [= H]. apply IH. exact H.
Qed.

Lemma append_not_self (a b : string) : b <> "" -> a ++ b <> a.
Proof.
  intros Hb H. apply Hb. apply (append_inj_l a). rewrite H.
  clear. induction a as [ | x a IH]; [reflexivity | ].
  rewrite append_cons. f_equal. exact IH.
Qed.

(** The directories of a new extractor hold neither a news nor a
    commercial directory. *)
Lemma fresh_root_lacks_search_dirs (images_dir category : string) :
  category = "news" \/ category = "commercial" ->
  path_join images_dir category ∉ dirs (initial_state images_dir).
Proof.
  intros Hcat. unfold initial_state, setup_directories, empty_state. cbn [snd dirs].
  unfold path_join.
  assert (Hself : images_dir ++ "/" ++ category <> images_dir).
  { apply append_not_self. destruct Hcat as [-> | ->]; discriminate. }
  assert (Hother : forall name, "/" ++ category <> "/" ++ name ->
                     images_dir ++ "/" ++ category <> images_dir ++ "/" ++ name).
  { intros name Hne H. apply Hne. exact (append_inj_l _ _ _ H). }
  rewrite !not_elem_of_union, !not_elem_of_singleton.
  split; [apply not_elem_of_empty | ].
  destruct Hcat as [-> | ->];
    (repeat split; [exact Hself | apply Hother; discriminate ..]).
Qed.

Section Search.

Variable W : World.
Variable images_dir : string.

Lemma download_image_missing_dir (img_url category session_id : string) (i : Z) (st : State) :
  path_join images_dir category ∉ dirs st ->
  let result := _download_image W images_dir img_url category session_id i st in
  fst result = None /\ files (snd result) = files st /\ dirs (snd result) = dirs st.
Proof.
  intros Hdir. cbv zeta. unfold _download_image.
  destruct (http_get W img_url) as [response | ]; [ | auto ].
  destruct (status_code response =? 200)%Z; [ | auto ].
  unfold mbind, M_bind, mret, M_ret, read_time, write_file.
  cbn [dirs files ticks extracted_images].
  destruct (decide (path_join images_dir category ∈ dirs st)); [contradiction | auto].
Qed.

Lemma search_loop_missing_dir (search_url session_id category : string)
    (elements : list (option string)) (i : Z) (images : list ViralImage) (st : State) :
  path_join images_dir category ∉ dirs st ->
  let result := search_loop W images_dir search_url session_id category elements i images st in
  files (snd result) = files st /\ dirs (snd result) = dirs st.
Proof.
  cbv zeta. revert i st. induction elements as [ | [img_url | ] rest IH]; intros i st Hdir;
    cbn [search_loop].
  - auto.
  - destruct (negb (_is_valid_image_url img_url)); [apply IH; exact Hdir | ].
    unfold mbind, M_bind.
    destruct (download_image_missing_dir img_url category session_id i st Hdir)
      as (Hnone & Hfiles & Hdirs).
    destruct (_download_image W images_dir img_url category session_id i st)
      as [downloaded st1].
    cbn [fst snd] in Hnone, Hfiles, Hdirs. subst downloaded.
    rewrite <- Hfiles, <- Hdirs. apply IH. rewrite Hdirs. exact Hdir.
  - apply IH. exact Hdir.
Qed.

Lemma extract_images_from_search_missing_dir (search_url session_id : string) (limit : Z)
    (category : string) (st : State) :
  path_join images_dir category ∉ dirs st ->
  let result :=
    _extract_images_from_search W images_dir search_url session_id limit category st in
  files (snd result) = files st /\ dirs (snd result) = dirs st.
Proof.
  intros Hdir. cbv zeta. unfold _extract_images_from_search.
  destruct (google_images_page W search_url); [ | auto ].
  apply search_loop_missing_dir. exact Hdir.
Qed.

Lemma news_loop_images (session_id : string) (limit : Z) (sites : list string) (st : State) :
  fst (news_loop W images_dir session_id limit sites [] st) = [].
Proof.
  revert st. induction sites as [ | site sites IH]; intros st; cbn [news_loop];
    [reflexivity | ].
  unfold mbind, M_bind.
  pose proof (extract_images_from_search_nil W images_dir site session_id (limit / 3) "news" st)
    as Hnil.
  destruct (_extract_images_from_search W images_dir site session_id (limit / 3) "news" st)
    as [site_images st1].
  cbn [fst] in Hnil. subst site_images. cbn [app length].
  destruct (limit <=? Z.of_nat 0)%Z; [reflexivity | apply IH].
Qed.

Lemma news_loop_missing_dir (session_id : string) (limit : Z) (sites : list string)
    (images : list ViralImage) (st : State) :
  path_join images_dir "news" ∉ dirs st ->
  let result := news_loop W images_dir session_id limit sites images st in
  files (snd result) = files st /\ dirs (snd result) = dirs st.
Proof.
  cbv zeta. revert images st. induction sites as [ | site sites IH]; intros images st Hdir;
    cbn [news_loop]; [auto | ].
  unfold mbind, M_bind.
  destruct (extract_images_from_search_missing_dir site session_id (limit / 3) "news" st Hdir)
    as (Hfiles & Hdirs).
  destruct (_extract_images_from_search W images_dir site session_id (limit / 3) "news" st)
    as [site_images st1].
  cbn [snd] in Hfiles, Hdirs.
  destruct (limit <=? Z.of_nat (length (images ++ site_images)%list))%Z; [auto | ].
  rewrite <- Hfiles, <- Hdirs. apply IH. rewrite Hdirs. exact Hdir.
Qed.

Lemma slice_to_nil {A} (n : Z) : slice_to n (@nil A) = [].
Proof. unfold slice_to. destruct (0 <=? n)%Z; apply firstn_nil. Qed.

Lemma additional_content_images (query session_id : string) (st : State) :
  fst (_extract_news_images W images_dir query session_id 8 st) = []
  /\ fst (_extract_commercial_images W images_dir query session_id 6 st) = []
  /\ fst (extract_additional_viral_content W images_dir query session_id st) = [].
Proof.
  assert (Hnews : forall limit st',
             fst (_extract_news_images W images_dir query session_id limit st') = []).
  { intros limit st'. unfold _extract_news_images, mbind, M_bind, mret, M_ret.
    pose proof (news_loop_images session_id limit (news_sites query) st') as Hnil.
    destruct (news_loop W images_dir session_id limit (news_sites query) [] st') as [images st1].
    cbn [fst] in Hnil |- *. subst images. apply slice_to_nil. }
  assert (Hcomm : forall limit st',
             fst (_extract_commercial_images W images_dir query session_id limit st') = []).
  { intros limit st'. unfold _extract_commercial_images, mbind, M_bind, mret, M_ret.
    match goal with
    | |- context [ _extract_images_from_search W images_dir ?u session_id limit "commercial" st' ] =>
        pose proof (extract_images_from_search_nil W images_dir u session_id limit
                      "commercial" st') as Hnil;
        destruct (_extract_images_from_search W images_dir u session_id limit "commercial" st')
          as [images st1]
    end.
    cbn [fst] in Hnil |- *. subst images. apply slice_to_nil. }
  split; [apply Hnews | split; [apply Hcomm | ] ].
  unfold extract_additional_viral_content, mbind, M_bind, mret, M_ret.
  pose proof (Hnews 8 st) as H1.
  destruct (_extract_news_images W images_dir query session_id 8 st) as [news st1].
  pose proof (Hcomm 6 st1) as H2.
  destruct (_extract_commercial_images W images_dir query session_id 6 st1) as [comm st2].
  cbn [fst] in *. subst. reflexivity.
Qed.

End Search.

(** X9: on the storage root a new extractor sets up, which has no news and
    no commercial directory, the fallback collectors store nothing: every
    write raises, so after [extract_additional_viral_content] the stored
    files and the directories are what they were. *)
Theorem X9_fresh_root_fallback_stores_nothing
    (W : World) (images_dir query session_id : string) (st : State) :
  dirs st = dirs (initial_state images_dir) ->
  let result := extract_additional_viral_content W images_dir query session_id st in
  files (snd result) = files st /\ dirs (snd result) = dirs st.
Proof.
  intros Hdirs. cbv zeta.
  assert (Hnews : path_join images_dir "news" ∉ dirs st)
    by (rewrite Hdirs; apply fresh_root_lacks_search_dirs; auto).
  assert (Hcomm : path_join images_dir "commercial" ∉ dirs st)
    by (rewrite Hdirs; apply fresh_root_lacks_search_dirs; auto).
  unfold extract_additional_viral_content, _extract_news_images, _extract_commercial_images,
    mbind, M_bind, mret, M_ret.
  destruct (news_loop_missing_dir W images_dir session_id 8 (news_sites query) [] st Hnews)
    as (Hf1 & Hd1).
  destruct (news_loop W images_dir session_id 8 (news_sites query) [] st) as [news st1].
  cbn [snd] in Hf1, Hd1.
  match goal with
  | |- context [ _extract_images_from_search W images_dir ?u session_id 6 "commercial" st1 ] =>
      destruct (extract_images_from_search_missing_dir W images_dir u session_id 6
                  "commercial" st1) as (Hf2 & Hd2);
      [rewrite Hd1; exact Hcomm | ];
      destruct (_extract_images_from_search W images_dir u session_id 6 "commercial" st1)
        as [comm st2]
  end.
  cbn [snd] in Hf2, Hd2 |- *. split; congruence.
Qed.

Lemma X9_fresh_root_fallback_stores_nothing_witness :
  let result :=
    extract_additional_viral_content (demo_world []) "viral_images" "q" "s1"
      (initial_state "viral_images") in
  files (snd result) = ∅ /\ dirs (snd result) = dirs (initial_state "viral_images").
Proof.
  cbv zeta.
  exact (X9_fresh_root_fallback_stores_nothing (demo_world []) "viral_images" "q" "s1"
           (initial_state "viral_images") eq_refl).
Defined.

(** X10: the news collector, the commercial collector and the fallback
    stage built from them return the empty list in every world and from
    every state: building a record reads the unbound name [query], and the
    exception is caught for each image. *)
Theorem X10_fallback_collectors_return_nothing
    (W : World) (images_dir query session_id : string) (st : State) :
  fst (_extract_news_images W images_dir query session_id 8 st) = []
  /\ fst (_extract_commercial_images W images_dir query session_id 6 st) = []
  /\ fst (extract_additional_viral_content W images_dir query session_id st) = [].
Proof. apply additional_content_images. Qed.

(** X11: an image that the search path has accepted stays stored although
    no record refers to it. When the page shows one image whose URL passes
    the filter and whose download is accepted, [_extract_images_from_search]
    returns no record and the file is in the storage afterwards. *)
Theorem X11_accepted_search_image_is_orphaned
    (W : World) (images_dir search_url session_id category img_url path : string)
    (limit : Z) (st : State) :
  google_images_page W search_url = Some [Some img_url] ->
  (1 <= limit)%Z ->
  _is_valid_image_url img_url = true ->
  fst (_download_image W images_dir img_url category session_id 0 st) = Some path ->
  let result :=
    _extract_images_from_search W images_dir search_url session_id limit category st in
  fst result = [] /\ is_Some (files (snd result) !! path).
Proof.
  intros Hpage Hlimit Hvalid Hdown. cbv zeta.
  split; [apply extract_images_from_search_nil | ].
  unfold _extract_images_from_search. rewrite Hpage.
  assert (Hslice : slice_to limit [Some img_url] = [Some img_url]).
  { unfold slice_to. destruct (Z.leb_spec 0 limit) as [_ | Hneg]; [ | lia ].
    destruct (Z.to_nat limit) as [ | [ | n]] eqn:Hn; [lia | reflexivity | reflexivity]. }
  rewrite Hslice. cbn [search_loop]. rewrite Hvalid. cbn [negb].
  unfold mbind, M_bind.
  destruct (download_image_floor W images_dir img_url category session_id 0 st path Hdown)
    as (b & img & Hfile & _).
  destruct (_download_image W images_dir img_url category session_id 0 st)
    as [downloaded st1].
  cbn [fst snd] in Hdown, Hfile. subst downloaded.
  unfold _get_image_info, open_image, mbind, M_bind, mret, M_ret, unbound_query.
  cbn [snd]. rewrite Hfile. eexists. reflexivity.
Qed.

Lemma X11_accepted_search_image_is_orphaned_witness :
  let result :=
    _extract_images_from_search one_photo_world "viral_images" "https://www.google.com/search?q=q"
      "s1" 6 "commercial" state_with_commercial_dir in
  fst result = []
  /\ is_Some (files (snd result)
                !! "viral_images/commercial/commercial_viral_0_1700000000.jpg").
Proof.
  cbv zeta.
  apply (X11_accepted_search_image_is_orphaned one_photo_world "viral_images"
           "https://www.google.com/search?q=q" "s1" "commercial" photo_url).
  - reflexivity.
  - lia.
  - vm_compute. reflexivity.
  - vm_compute. reflexivity.
Defined.

(** ** The YouTube collector *)

Lemma calculate_score_range (metrics : gmap string value) (platform : string) :
  in_score_range (_calculate_image_virality_score metrics platform).
Proof.
  unfold _calculate_image_virality_score.
  destruct (score_body metrics platform) as [s | ] eqn:Hs.
  - eapply score_body_range; eassumption.
  - split; reflexivity.
Qed.

Lemma extract_hashtags_shape (text : string) :
  (length (_extract_hashtags_from_text text) <= 10)%nat
  /\ Forall is_hashtag (_extract_hashtags_from_text text).
Proof.
  change (_extract_hashtags_from_text text) with (firstn 10 (findall_hashtags text None [])).
  split; [apply firstn_le_length | ].
  pose proof (matches_are_hashtags _ _ (proj1 (findall_hashtags_matches text))) as Hall.
  rewrite List.Forall_forall in Hall |- *. intros t Ht. apply Hall.
  rewrite <- (firstn_skipn 10 (findall_hashtags text None [])).
  apply in_or_app. left. exact Ht.
Qed.

Lemma files_kept_refl (st : State) : files_kept st st.
Proof. intros p H. exact H. Qed.

Lemma files_kept_trans (st1 st2 st3 : State) :
  files_kept st1 st2 -> files_kept st2 st3 -> files_kept st1 st3.
Proof. intros H12 H23 p H. apply H23, H12, H. Qed.

Section Thumbnails.

Variable W : World.
Variable images_dir : string.

Lemma thumbnail_loop_spec (video_data : Video) (urls : list string) (st : State) :
  let result := thumbnail_loop W images_dir video_data urls st in
  files_kept st (snd result)
  /\ dirs (snd result) = dirs st
  /\ (forall r, fst result = Some r ->
        youtube_record r /\ stored_in (snd result) r /\ In (image_url r) urls)
  /\ (path_join images_dir "youtube" ∈ dirs st ->
      image_url <$> fst result = List.find (answers_200 W) urls)
  /\ (path_join images_dir "youtube" ∉ dirs st ->
      fst result = None /\ files (snd result) = files st).
Proof.
  cbv zeta. revert st. induction urls as [ | url rest IH]; intros st.
  - cbn [thumbnail_loop mret M_ret fst snd List.find].
    split; [apply files_kept_refl | split; [reflexivity | split; [discriminate | auto] ] ].
  - assert (Hnext : answers_200 W url = false ->
              let result := thumbnail_loop W images_dir video_data rest st in
              files_kept st (snd result)
              /\ dirs (snd result) = dirs st
              /\ (forall r, fst result = Some r ->
                    youtube_record r /\ stored_in (snd result) r /\ In (image_url r) (url :: rest))
              /\ (path_join images_dir "youtube" ∈ dirs st ->
                  image_url <$> fst result = List.find (answers_200 W) (url :: rest))
              /\ (path_join images_dir "youtube" ∉ dirs st ->
                  fst result = None /\ files (snd result) = files st)).
    { intros Hno. cbv zeta. destruct (IH st) as (Hk & Hd & Hr & Hin & Hout).
      split; [exact Hk | split; [exact Hd | split; [ | split; [ | exact Hout] ] ] ].
      - intros r Hres. destruct (Hr r Hres) as (H1 & H2 & H3). auto using in_cons.
      - intros Hdir. cbn [List.find]. rewrite Hno. apply Hin. exact Hdir. }
    cbn [thumbnail_loop]. unfold answers_200 in Hnext.
    destruct (http_get W url) as [response | ] eqn:Hget; [ | apply Hnext; reflexivity ].
    destruct (status_code response =? 200)%Z eqn:Hstatus; [ | apply Hnext; reflexivity ].
    clear Hnext.
    cbv beta iota zeta delta [mbind M_bind mret M_ret read_time write_file].
    cbn [dirs files ticks extracted_images].
    destruct (decide (path_join images_dir "youtube" ∈ dirs st)) as [Hdir | Hdir].
    + cbv beta iota zeta delta [_get_image_info open_image read_now mbind M_bind mret M_ret].
      cbn [dirs files ticks extracted_images fst snd]. rewrite lookup_insert_eq.
      split; [ | split; [reflexivity | split; [ | split; [ | contradiction ] ] ] ].
      * intros p Hp. cbn [files]. destruct (decide (p = path_join (path_join images_dir "youtube")
            ("youtube_thumbnail_" ++ v_id video_data ++ "_"
               ++ Py.str_of_int (time_time W (ticks st)) ++ ".jpg"))) as [-> | Hne].
        -- rewrite lookup_insert_eq. eexists. reflexivity.
        -- rewrite lookup_insert_ne by congruence. exact Hp.
      * intros r [= <-]. unfold youtube_record, stored_in.
        cbn [platform content_type virality_score hashtags local_path image_url files].
        split; [ | split; [rewrite lookup_insert_eq; eexists; reflexivity | left; reflexivity] ].
        split; [reflexivity | split; [reflexivity | split; [apply calculate_score_range | ] ] ].
        apply extract_hashtags_shape.
      * intros _. cbn [List.find]. unfold answers_200. rewrite Hget, Hstatus. reflexivity.
    + destruct (IH {| dirs := dirs st; files := files st; ticks := S (ticks st);
                      extracted_images := extracted_images st |})
        as (Hk & Hd & Hr & _ & Hout).
      cbn [dirs files] in *.
      destruct (Hout Hdir) as [Hnone Hfiles].
      split; [exact Hk | split; [exact Hd | split; [ | split; [contradiction | auto] ] ] ].
      intros r Hres. rewrite Hnone in Hres. discriminate.
Qed.

Lemma thumbnails_loop_spec (session_id : string) (videos : list Video)
    (images : list ViralImage) (st : State) :
  Forall youtube_record images -> Forall (stored_in st) images ->
  let result := thumbnails_loop W images_dir session_id videos images st in
  (length (fst result) <= length images + length videos)%nat
  /\ Forall youtube_record (fst result)
  /\ Forall (stored_in (snd result)) (fst result)
  /\ files_kept st (snd result)
  /\ dirs (snd result) = dirs st.
Proof.
  cbv zeta. revert images st. induction videos as [ | video rest IH]; intros images st Hrec Hsto.
  - cbn [thumbnails_loop mret M_ret fst snd length].
    split; [lia | split; [exact Hrec | split; [exact Hsto | split; [apply files_kept_refl | reflexivity] ] ] ].
  - cbn [thumbnails_loop]. unfold mbind, M_bind, _download_youtube_thumbnail.
    destruct (thumbnail_loop_spec video (thumbnail_urls_of (v_id video)) st)
      as (Hk & Hd & Hr & _ & _).
    destruct (thumbnail_loop W images_dir video (thumbnail_urls_of (v_id video)) st)
      as [thumbnail_image st1].
    cbn [fst snd] in Hk, Hd, Hr.
    assert (Hsto1 : Forall (stored_in st1) images).
    { rewrite List.Forall_forall in Hsto |- *. intros r Hin. apply Hk, Hsto, Hin. }
    destruct thumbnail_image as [image | ].
    + destruct (Hr image eq_refl) as (Hrec1 & Hst1 & _).
      destruct (IH (images ++ [image])%list st1) as (Hlen & H1 & H2 & H3 & H4).
      * apply List.Forall_app. split; [exact Hrec | constructor; [exact Hrec1 | constructor] ].
      * apply List.Forall_app. split; [exact Hsto1 | constructor; [exact Hst1 | constructor] ].
      * rewrite length_app in Hlen. cbn [length] in Hlen |- *.
        split; [lia | split; [exact H1 | split; [exact H2 | split ] ] ].
        -- eapply files_kept_trans; eassumption.
        -- congruence.
    + destruct (IH images st1 Hrec Hsto1) as (Hlen & H1 & H2 & H3 & H4).
      cbn [length]. split; [lia | split; [exact H1 | split; [exact H2 | split ] ] ].
      * eapply files_kept_trans; eassumption.
      * congruence.
Qed.

Lemma extract_youtube_thumbnails_spec (query session_id : string) (limit : Z) (st : State) :
  (0 <= limit)%Z ->
  let result := extract_youtube_thumbnails W images_dir query session_id limit st in
  (length (fst result) <= Z.to_nat limit)%nat
  /\ Forall youtube_record (fst result)
  /\ Forall (stored_in (snd result)) (fst result)
  /\ files_kept st (snd result)
  /\ dirs (snd result) = dirs st.
Proof.
  intros Hlimit. cbv zeta. unfold extract_youtube_thumbnails.
  destruct (thumbnails_loop_spec session_id (_scrape_youtube_videos W query limit) [] st)
    as (Hlen & H1 & H2 & H3 & H4); [constructor | constructor | ].
  pose proof (proj1 (scrape_youtube_videos_spec W query limit Hlimit)) as Hvideos.
  cbn [length] in Hlen. split; [lia | auto].
Qed.

End Thumbnails.

(** X12: when the YouTube directory exists, [_download_youtube_thumbnail]
    takes the first of the three thumbnail URLs (maximal, high, medium
    quality) that is answered with status 200, and returns nothing when
    none is; when the directory is missing it returns nothing and stores
    nothing. *)
Theorem X12_first_fetched_thumbnail_wins
    (W : World) (images_dir session_id : string) (video_data : Video) (st : State) :
  let result := _download_youtube_thumbnail W images_dir video_data session_id st in
  (path_join images_dir "youtube" ∈ dirs st ->
   image_url <$> fst result
   = List.find (answers_200 W) (thumbnail_urls_of (v_id video_data)))
  /\ (path_join images_dir "youtube" ∉ dirs st ->
      fst result = None /\ files (snd result) = files st).
Proof.
  cbv zeta. unfold _download_youtube_thumbnail.
  destruct (thumbnail_loop_spec W images_dir video_data (thumbnail_urls_of (v_id video_data)) st)
    as (_ & _ & _ & Hin & Hout).
  split; assumption.
Qed.

(** X13: for a quota [limit >= 0] the YouTube collector returns at most
    [limit] records; each is a YouTube thumbnail with a score in [[0, 100]]
    and at most 10 hashtags, and its file is in the storage when the
    collector returns. The collector removes no file and creates no
    directory. *)
Theorem X13_youtube_collector
    (W : World) (images_dir query session_id : string) (limit : Z) (st : State) :
  (0 <= limit)%Z ->
  let result := extract_youtube_thumbnails W images_dir query session_id limit st in
  (Z.of_nat (length (fst result)) <= limit)%Z
  /\ Forall youtube_record (fst result)
  /\ Forall (stored_in (snd result)) (fst result)
  /\ files_kept st (snd result)
  /\ dirs (snd result) = dirs st.
Proof.
  intros Hlimit. cbv zeta.
  destruct (extract_youtube_thumbnails_spec W images_dir query session_id limit st Hlimit)
    as (Hlen & H). split; [lia | exact H].
Qed.

Lemma X13_youtube_collector_witness :
  let result :=
    extract_youtube_thumbnails (demo_world []) "viral_images" "q" "s1" 6
      (initial_state "viral_images") in
  (Z.of_nat (length (fst result)) <= 6)%Z
  /\ Forall youtube_record (fst result)
  /\ Forall (stored_in (snd result)) (fst result)
  /\ files_kept (initial_state "viral_images") (snd result)
  /\ dirs (snd result) = dirs (initial_state "viral_images").
Proof.
  cbv zeta.
  apply (X13_youtube_collector (demo_world []) "viral_images" "q" "s1" 6
           (initial_state "viral_images")).
  lia.
Defined.

(** ** The Instagram and Facebook collectors *)

Section SocialCollectors.

Variable B : Browser.
Variable W : World.
Variable images_dir : string.

Lemma download_image_dirs (img_url platform session_id : string) (i : Z) (st : State) :
  dirs (snd (_download_image W images_dir img_url platform session_id i st)) = dirs st.
Proof.
  unfold _download_image.
  destruct (http_get W img_url) as [response | ]; [ | reflexivity ].
  destruct (status_code response =? 200)%Z; [ | reflexivity ].
  cbv beta iota zeta delta [mbind M_bind mret M_ret read_time write_file].
  cbn [dirs files ticks extracted_images].
  destruct (decide (path_join images_dir platform ∈ dirs st)); [ | reflexivity ].
  cbv beta iota zeta delta [open_image mbind M_bind mret M_ret remove_file].
  cbn [dirs files ticks extracted_images].
  destruct (_ !! _) as [[b | m] | ]; try reflexivity.
  destruct (pil_open W b) as [img | ]; [destruct (size_ok img) | ]; reflexivity.
Qed.

Lemma get_image_info_state (path : string) (st : State) :
  snd (_get_image_info W path st) = st.
Proof. reflexivity. Qed.

Lemma instagram_post_spec (post_url session_id : string) (index : Z) (st : State) :
  let result := Social._extract_instagram_post_image B W images_dir post_url session_id index st in
  dirs (snd result) = dirs st
  /\ forall r, fst result = Some r -> instagram_record r.
Proof.
  cbv zeta. unfold Social._extract_instagram_post_image.
  destruct (instagram_post_page B post_url) as [page | ]; [ | split; [reflexivity | discriminate] ].
  destruct (post_image page) as [img_url | ]; [ | split; [reflexivity | discriminate] ].
  cbv beta iota zeta delta [mbind M_bind mret M_ret read_now].
  pose proof (download_image_dirs img_url "instagram" session_id index st) as Hdirs.
  pose proof (download_image_floor W images_dir img_url "instagram" session_id index st) as Hfloor.
  destruct (_download_image W images_dir img_url "instagram" session_id index st)
    as [[local_path | ] st1];
    cbv beta iota zeta delta [mbind M_bind mret M_ret read_now];
    cbn [fst snd] in Hdirs, Hfloor |- *; [ | split; [exact Hdirs | discriminate] ].
  destruct (Hfloor local_path eq_refl) as (b & img & _ & _ & Hw & Hh & Hinfo).
  rewrite (surjective_pairing (_get_image_info W local_path st1)).
  rewrite get_image_info_state. cbn [fst snd dirs].
  split; [exact Hdirs | ].
  intros r [= <-]. unfold instagram_record.
  cbn [platform content_type image_size virality_score hashtags].
  split; [reflexivity | split; [reflexivity | split ] ].
  - change (meets_floor (info_size (fst (_get_image_info W local_path st1)))).
    rewrite Hinfo. split; assumption.
  - split; [apply calculate_score_range | apply extract_hashtags_shape].
Qed.

Lemma hashtag_loop_spec (session_id : string) (limit : Z) (post_links : list (option string))
    (i : Z) (images : list ViralImage) (st : State) :
  Forall instagram_record images ->
  let result := Social.hashtag_loop B W images_dir session_id limit post_links i images st in
  (length (fst result) <= length images + length post_links)%nat
  /\ ((limit <= i)%Z -> fst result = images)
  /\ Forall instagram_record (fst result)
  /\ dirs (snd result) = dirs st.
Proof.
  cbv zeta. revert i images st.
  induction post_links as [ | link rest IH]; intros i images st Hrec; cbn [Social.hashtag_loop].
  - cbn [mret M_ret fst snd length]. split; [lia | auto].
  - destruct (Z.leb_spec limit i) as [Hstop | Hgo].
    + cbn [mret M_ret fst snd length]. split; [lia | auto].
    + assert (Hskip : forall st1, dirs st1 = dirs st ->
                let result := Social.hashtag_loop B W images_dir session_id limit rest (i + 1)
                                images st1 in
                (length (fst result) <= length images + length (link :: rest))%nat
                /\ ((limit <= i)%Z -> fst result = images)
                /\ Forall instagram_record (fst result)
                /\ dirs (snd result) = dirs st).
      { intros st1 Hd. cbv zeta. destruct (IH (i + 1) images st1 Hrec) as (Hlen & _ & Hall & Hdirs).
        cbn [length]. split; [lia | split; [lia | split; [exact Hall | congruence] ] ]. }
      destruct link as [post_url | ]; [ | apply Hskip; reflexivity ].
      unfold mbind, M_bind.
      destruct (instagram_post_spec post_url session_id i st) as [Hd Hr].
      destruct (Social._extract_instagram_post_image B W images_dir post_url session_id i st)
        as [[image | ] st1]; cbn [fst snd] in Hd, Hr; [ | apply Hskip; exact Hd ].
      destruct (IH (i + 1) (images ++ [image])%list st1) as (Hlen & _ & Hall & Hdirs).
      { apply List.Forall_app. split; [exact Hrec | ].
        constructor; [apply Hr; reflexivity | constructor]. }
      rewrite length_app in Hlen. cbn [length] in Hlen |- *.
      split; [lia | split; [lia | split; [exact Hall | congruence] ] ].
Qed.

Lemma scrape_instagram_hashtag_spec (hashtag session_id : string) (limit : Z) (st : State) :
  let result := Social._scrape_instagram_hashtag B W images_dir hashtag session_id limit st in
  (length (fst result) <= Z.to_nat limit)%nat
  /\ Forall instagram_record (fst result)
  /\ dirs (snd result) = dirs st.
Proof.
  cbv zeta. unfold Social._scrape_instagram_hashtag.
  destruct (instagram_tag_page B _) as [post_links | ];
    [ | cbn [mret M_ret fst snd length]; split; [lia | split; [constructor | reflexivity] ] ].
  destruct (hashtag_loop_spec session_id limit (slice_to limit post_links) 0 [] st)
    as (Hlen & Hstop & Hall & Hdirs); [constructor | ].
  split; [ | split; assumption ].
  destruct (Z.leb_spec 0 limit) as [Hpos | Hneg].
  - pose proof (slice_to_length limit post_links Hpos). cbn [length] in Hlen. lia.
  - rewrite Hstop by lia. cbn [length]. lia.
Qed.

Lemma instagram_loop_spec (session_id : string) (limit : Z) (hashtags : list string)
    (images : list ViralImage) (st : State) :
  Forall instagram_record images ->
  let result := Social.instagram_loop B W images_dir session_id limit hashtags images st in
  Forall instagram_record (fst result) /\ dirs (snd result) = dirs st.
Proof.
  cbv zeta. revert images st. induction hashtags as [ | hashtag rest IH]; intros images st Hrec;
    cbn [Social.instagram_loop].
  - auto.
  - unfold mbind, M_bind.
    destruct (scrape_instagram_hashtag_spec hashtag session_id (limit / 3) st) as (_ & Hall & Hd).
    destruct (Social._scrape_instagram_hashtag B W images_dir hashtag session_id (limit / 3) st)
      as [hashtag_images st1].
    cbn [fst snd] in Hall, Hd.
    assert (Hboth : Forall instagram_record (images ++ hashtag_images)%list)
      by (apply List.Forall_app; auto).
    destruct (limit <=? Z.of_nat (length (images ++ hashtag_images)%list))%Z.
    + cbn [mret M_ret fst snd]. auto.
    + destruct (IH (images ++ hashtag_images)%list st1 Hboth) as [H1 H2].
      split; [exact H1 | congruence].
Qed.

Lemma Forall_slice_to {A} (P : A -> Prop) (n : Z) (l : list A) :
  Forall P l -> Forall P (slice_to n l).
Proof.
  intros Hall. unfold slice_to.
  destruct (0 <=? n)%Z; rewrite List.Forall_forall in Hall |- *; intros x Hx; apply Hall;
    match type of Hx with
    | In x (firstn ?k l) => rewrite <- (firstn_skipn k l); apply in_or_app; left; exact Hx
    end.
Qed.

Lemma extract_instagram_images_spec (query session_id : string) (limit : Z) (st : State) :
  (0 <= limit)%Z ->
  let result := Social.extract_instagram_images B W images_dir query session_id limit st in
  (length (fst result) <= Z.to_nat limit)%nat
  /\ Forall instagram_record (fst result)
  /\ dirs (snd result) = dirs st.
Proof.
  intros Hlimit. cbv zeta. unfold Social.extract_instagram_images, mbind, M_bind, mret, M_ret.
  destruct (instagram_loop_spec session_id limit (slice_to 3 (_generate_hashtags query)) [] st)
    as [Hall Hd]; [constructor | ].
  destruct (Social.instagram_loop B W images_dir session_id limit
              (slice_to 3 (_generate_hashtags query)) [] st) as [images st1].
  cbn [fst snd] in *.
  split; [apply slice_to_length; exact Hlimit | split; [apply Forall_slice_to; exact Hall | exact Hd] ].
Qed.

Lemma facebook_page_loop_spec (page_url session_id : string)
    (img_elements : list (option string)) (i : Z) (images : list ViralImage) (st : State) :
  let result := Social.facebook_page_loop W images_dir page_url session_id img_elements i
                  images st in
  fst result = images /\ dirs (snd result) = dirs st.
Proof.
  cbv zeta. revert i st. induction img_elements as [ | [img_url | ] rest IH]; intros i st;
    cbn [Social.facebook_page_loop].
  - auto.
  - unfold mbind, M_bind.
    pose proof (download_image_dirs img_url "facebook" session_id i st) as Hd.
    destruct (_download_image W images_dir img_url "facebook" session_id i st)
      as [[local_path | ] st1]; cbn [snd] in Hd.
    + rewrite (surjective_pairing (_get_image_info W local_path st1)).
      rewrite get_image_info_state. unfold Social.facebook_unbound_query.
      destruct (IH (i + 1) st1) as [H1 H2]. split; [exact H1 | congruence].
    + destruct (IH (i + 1) st1) as [H1 H2]. split; [exact H1 | congruence].
  - apply IH.
Qed.

Lemma facebook_page_images_spec (page_url session_id : string) (limit : Z) (st : State) :
  let result := Social._extract_facebook_page_images B W images_dir page_url session_id limit st in
  fst result = [] /\ dirs (snd result) = dirs st.
Proof.
  cbv zeta. unfold Social._extract_facebook_page_images.
  destruct (facebook_page B page_url); [apply facebook_page_loop_spec | auto].
Qed.

Lemma facebook_links_loop_spec (session_id : string) (limit : Z)
    (page_links : list (option string)) (st : State) :
  let result := Social.facebook_links_loop B W images_dir session_id limit page_links [] st in
  fst result = [] /\ dirs (snd result) = dirs st.
Proof.
  cbv zeta. revert st. induction page_links as [ | [page_url | ] rest IH]; intros st;
    cbn [Social.facebook_links_loop].
  - auto.
  - unfold mbind, M_bind.
    destruct (facebook_page_images_spec page_url session_id (limit / 3) st) as [Hnil Hd].
    destruct (Social._extract_facebook_page_images B W images_dir page_url session_id
                (limit / 3) st) as [page_images st1].
    cbn [fst snd] in Hnil, Hd. subst page_images. cbn [app].
    destruct (IH st1) as [H1 H2]. split; [exact H1 | congruence].
  - apply IH.
Qed.

Lemma scrape_facebook_spec (query session_id : string) (limit : Z) (st : State) :
  let result := Social._scrape_facebook_public_content B W images_dir query session_id limit st in
  fst result = [] /\ dirs (snd result) = dirs st.
Proof.
  cbv zeta. unfold Social._scrape_facebook_public_content.
  destruct (facebook_search_page B _) as [page_links | ]; [ | auto ].
  unfold mbind, M_bind, mret, M_ret.
  destruct (facebook_links_loop_spec session_id limit (slice_to 3 page_links) st) as [Hnil Hd].
  destruct (Social.facebook_links_loop B W images_dir session_id limit (slice_to 3 page_links)
              [] st) as [images st1].
  cbn [fst snd] in *. subst images. split; [apply slice_to_nil | exact Hd].
Qed.

Lemma facebook_loop_spec (session_id : string) (limit : Z) (search_terms : list string)
    (st : State) :
  let result := Social.facebook_loop B W images_dir session_id limit search_terms [] st in
  fst result = [] /\ dirs (snd result) = dirs st.
Proof.
  cbv zeta. revert st. induction search_terms as [ | term rest IH]; intros st;
    cbn [Social.facebook_loop].
  - auto.
  - unfold mbind, M_bind.
    destruct (scrape_facebook_spec term session_id (limit / 2) st) as [Hnil Hd].
    destruct (Social._scrape_facebook_public_content B W images_dir term session_id
                (limit / 2) st) as [term_images st1].
    cbn [fst snd] in Hnil, Hd. subst term_images. cbn [app length].
    destruct (limit <=? Z.of_nat 0)%Z; [cbn [mret M_ret fst snd]; auto | ].
    destruct (IH st1) as [H1 H2]. split; [exact H1 | congruence].
Qed.

Lemma extract_facebook_images_spec (query session_id : string) (limit : Z) (st : State) :
  let result := Social.extract_facebook_images B W images_dir query session_id limit st in
  fst result = [] /\ dirs (snd result) = dirs st.
Proof.
  cbv zeta. unfold Social.extract_facebook_images, mbind, M_bind, mret, M_ret.
  destruct (facebook_loop_spec session_id limit (slice_to 2 (_generate_search_terms query)) st)
    as [Hnil Hd].
  destruct (Social.facebook_loop B W images_dir session_id limit
              (slice_to 2 (_generate_search_terms query)) [] st) as [images st1].
  cbn [fst snd] in *. subst images. split; [apply slice_to_nil | exact Hd].
Qed.

End SocialCollectors.

(** X14: for a quota [limit >= 0] the Instagram collector returns at most
    [limit] records; each is an Instagram image of at least 200 by 200
    pixels with a score in [[0, 100]] and at most 10 hashtags. *)
Theorem X14_instagram_collector
    (B : Browser) (W : World) (images_dir query session_id : string) (limit : Z) (st : State) :
  (0 <= limit)%Z ->
  let result := Social.extract_instagram_images B W images_dir query session_id limit st in
  (Z.of_nat (length (fst result)) <= limit)%Z
  /\ Forall instagram_record (fst result).
Proof.
  intros Hlimit. cbv zeta.
  destruct (extract_instagram_images_spec B W images_dir query session_id limit st Hlimit)
    as (Hlen & Hall & _).
  split; [lia | exact Hall].
Qed.

Lemma X14_instagram_collector_witness :
  let result :=
    Social.extract_instagram_images demo_browser (demo_world []) "viral_images"
      "marketing digital" "s1" 8 (initial_state "viral_images") in
  (Z.of_nat (length (fst result)) <= 8)%Z /\ Forall instagram_record (fst result).
Proof.
  cbv zeta.
  apply (X14_instagram_collector demo_browser (demo_world []) "viral_images"
           "marketing digital" "s1" 8 (initial_state "viral_images")).
  lia.
Defined.

(** X15: the Facebook collector returns the empty list in every world,
    from every state and for every quota: building a record reads the
    unbound name [query], and the exception is caught for each image. *)
Theorem X15_facebook_collector_returns_nothing
    (B : Browser) (W : World) (images_dir query session_id : string) (limit : Z) (st : State) :
  fst (Social.extract_facebook_images B W images_dir query session_id limit st) = [].
Proof. apply extract_facebook_images_spec. Qed.

(** ** The extractor with its own collectors *)

Section OwnCollectors.

Variable B : Browser.
Variable W : World.
Variables images_dir query session_id : string.

Lemma own_collect_primary_spec (st : State) :
  let primary := collect_primary (own_world B W images_dir) images_dir query session_id st in
  (length (fst primary) <= 14)%nat
  /\ Forall collected_record (fst primary)
  /\ dirs (snd primary) = dirs st.
Proof.
  cbv zeta. unfold collect_primary, mbind, M_bind, mret, M_ret.
  cbn [extract_instagram_images extract_facebook_images own_world].
  destruct (extract_instagram_images_spec B W images_dir query session_id 8 st)
    as (Hlen1 & Hall1 & Hd1); [lia | ].
  destruct (Social.extract_instagram_images B W images_dir query session_id 8 st)
    as [instagram_images st1].
  cbn [fst snd] in Hlen1, Hall1, Hd1.
  destruct (extract_facebook_images_spec B W images_dir query session_id 6 st1) as [Hnil Hd2].
  destruct (Social.extract_facebook_images B W images_dir query session_id 6 st1)
    as [facebook_images st2].
  cbn [fst snd] in Hnil, Hd2. subst facebook_images.
  destruct (extract_youtube_thumbnails_spec (own_world B W images_dir) images_dir query
              session_id 6 st2) as (Hlen3 & Hall3 & _ & _ & Hd3); [lia | ].
  destruct (extract_youtube_thumbnails (own_world B W images_dir) images_dir query session_id 6
              st2) as [youtube_images st3].
  cbn [fst snd app] in *.
  split; [rewrite length_app; lia | split; [ | congruence] ].
  apply List.Forall_app. split.
  - eapply List.Forall_impl; [ | exact Hall1 ]. intros r Hr. left. exact Hr.
  - eapply List.Forall_impl; [ | exact Hall3 ]. intros r Hr. right. exact Hr.
Qed.

Lemma own_collect_all_spec (st : State) :
  let primary := collect_primary (own_world B W images_dir) images_dir query session_id st in
  collect_all (own_world B W images_dir) images_dir query session_id st
  = (fst primary,
     snd (extract_additional_viral_content (own_world B W images_dir) images_dir query
            session_id (snd primary))).
Proof.
  cbv zeta. unfold collect_all, mbind, M_bind, mret, M_ret.
  destruct (own_collect_primary_spec st) as (Hlen & _ & _).
  destruct (collect_primary (own_world B W images_dir) images_dir query session_id st)
    as [all_images st1].
  cbn [fst snd] in Hlen |- *. unfold min_images_target.
  destruct (Z.ltb_spec (Z.of_nat (length all_images)) 20) as [_ | Hge]; [ | lia ].
  pose proof (additional_content_images (own_world B W images_dir) images_dir query session_id
                st1) as (_ & _ & Hnil).
  destruct (extract_additional_viral_content (own_world B W images_dir) images_dir query
              session_id st1) as [additional_images st2].
  cbn [fst snd] in Hnil |- *. subst additional_images. rewrite app_nil_r. reflexivity.
Qed.

Lemma collected_record_number (r : ViralImage) : collected_record r -> score_is_number r.
Proof.
  intros [H | H]; apply in_score_range_not_nan; [apply H | apply H].
Qed.

End OwnCollectors.

(** X16: with the extractor's own collectors the target of 20 is out of
    reach. The primary sources deliver at most 8 + 0 + 6 = 14 records, so
    the fallback stage is always run and, adding nothing, leaves the
    working set as it was; [extract_viral_images] returns all of it, at most
    14 records, and the summary never reports [success]. *)
Theorem X16_own_collectors_never_reach_target
    (B : Browser) (W : World) (images_dir query session_id : string) (st : State) :
  let own := own_world B W images_dir in
  let primary := collect_primary own images_dir query session_id st in
  let result := extract_viral_images own images_dir query session_id st in
  (length (fst primary) <= 14)%nat
  /\ collect_all own images_dir query session_id st
     = (fst primary,
        snd (extract_additional_viral_content own images_dir query session_id (snd primary)))
  /\ Permutation (fst result) (fst primary)
  /\ (length (fst result) <= 14)%nat
  /\ sm_status (fst (get_extracted_images_summary (snd result))) <> "success".
Proof.
  cbv zeta.
  destruct (own_collect_primary_spec B W images_dir query session_id st) as (Hlen & _ & _).
  pose proof (own_collect_all_spec B W images_dir query session_id st) as Hall.
  cbv zeta in Hall.
  destruct (extract_viral_images_result (own_world B W images_dir) images_dir query session_id st)
    as [Hres Hext].
  rewrite Hall in Hres, Hext. cbn [fst] in Hres, Hext.
  rewrite rank_and_truncate_firstn in Hres, Hext.
  set (primary := fst (collect_primary (own_world B W images_dir) images_dir query session_id st))
    in *.
  pose proof (sort_by_score_reverse_length primary) as Hsorted.
  rewrite firstn_all2 in Hres, Hext by lia.
  split; [exact Hlen | split; [exact Hall | ] ].
  split; [rewrite Hres; apply sort_by_score_reverse_perm | ].
  split; [rewrite Hres; lia | ].
  rewrite summary_status, Hext.
  destruct (sort_by_score_reverse primary) as [ | r l] eqn:Hs; [discriminate | ].
  destruct (Z.leb_spec 20 (Z.of_nat (length (r :: l)))) as [Hge | _]; [lia | discriminate].
Qed.

(** X17: with the extractor's own collectors the returned list is always
    ranked: every record comes from the Instagram or the YouTube collector
    with a score in [[0, 100]], and no record stands before one with a
    higher score. *)
Theorem X17_own_result_is_ranked
    (B : Browser) (W : World) (images_dir query session_id : string) (st : State) :
  let result :=
    extract_viral_images (own_world B W images_dir) images_dir query session_id st in
  Forall collected_record (fst result)
  /\ Forall (fun r => in_score_range (virality_score r)) (fst result)
  /\ StronglySorted desc (fst result).
Proof.
  cbv zeta.
  destruct (own_collect_primary_spec B W images_dir query session_id st) as (Hlen & Hrec & _).
  pose proof (own_collect_all_spec B W images_dir query session_id st) as Hall.
  cbv zeta in Hall.
  destruct (extract_viral_images_result (own_world B W images_dir) images_dir query session_id st)
    as [Hres _].
  rewrite Hall in Hres. cbn [fst] in Hres. rewrite rank_and_truncate_firstn in Hres.
  set (primary := fst (collect_primary (own_world B W images_dir) images_dir query session_id st))
    in *.
  pose proof (sort_by_score_reverse_length primary) as Hsorted.
  rewrite firstn_all2 in Hres by lia. rewrite Hres.
  assert (Hrec' : Forall collected_record (sort_by_score_reverse primary)).
  { eapply Permutation_Forall; [apply Permutation_sym, sort_by_score_reverse_perm | exact Hrec]. }
  split; [exact Hrec' | split ].
  - eapply List.Forall_impl; [ | exact Hrec' ]. intros r [H | H]; apply H.
  - apply sort_by_score_reverse_sorted.
    eapply List.Forall_impl; [ | exact Hrec ]. apply collected_record_number.
Qed.

(** ** Counters, metadata and summary *)

Lemma count_fold_lookup (images : list ViralImage) (counts : gmap string Z) (p : string) :
  fold_left (fun counts image =>
               <[platform image := default 0 (counts !! platform image) + 1]> counts)
            images counts !! p
  = match platform_count p images with
    | O => counts !! p
    | n => Some (default 0 (counts !! p) + Z.of_nat n)
    end.
Proof.
  revert counts. induction images as [ | r images IH]; intros counts; [reflexivity | ].
  cbn [fold_left]. rewrite IH. unfold platform_count. cbn [List.filter].
  destruct (String.eqb_spec (platform r) p) as [-> | Hne].
  - cbn [length].
    destruct (length (List.filter (fun r0 => String.eqb (platform r0) p) images)) as [ | n].
    + rewrite lookup_insert_eq. cbn [default]. unfold id. f_equal; lia.
    + rewrite lookup_insert_eq. cbn [default]. unfold id. f_equal; lia.
  - rewrite lookup_insert_ne by exact Hne. reflexivity.
Qed.

(** X18: the per-platform counter holds, for every platform, the number of
    records of that platform, and has no entry for a platform without
    record (no entry with count 0). *)
Theorem X18_count_by_platform (images : list ViralImage) (p : string) :
  count_by_platform images !! p
  = match platform_count p images with
    | O => None
    | n => Some (Z.of_nat n)
    end.
Proof.
  unfold count_by_platform. rewrite count_fold_lookup, lookup_empty. cbn [default].
  destruct (platform_count p images); reflexivity.
Qed.


(** ** Search terms and generated hashtags *)

Lemma word_pairs_spec (words : list string) (t : string) :
  In t (word_pairs words) <-> ordered_pair_of words t.
Proof.
  unfold ordered_pair_of. induction words as [ | a words IH]; cbn [word_pairs].
  - split; [intros [] | ]. intros (l1 & a & l2 & b & l3 & Heq & _).
    destruct l1; discriminate Heq.
  - rewrite in_app_iff, in_map_iff, IH. split.
    + intros [(b & <- & Hb) | (l1 & a' & l2 & b & l3 & -> & ->)].
      * destruct (in_split _ _ Hb) as (l2 & l3 & ->).
        exists [], a, l2, b, l3. split; reflexivity.
      * exists (a :: l1), a', l2, b, l3. split; reflexivity.
    + intros (l1 & a' & l2 & b & l3 & Heq & ->). destruct l1 as [ | x l1].
      * injection Heq as <- ->. left. exists b. split; [reflexivity | ].
        apply in_or_app. right. left. reflexivity.
      * injection Heq as <- ->. right. exists l1, a', l2, b, l3. split; reflexivity.
Qed.

Lemma word_pairs_length (words : list string) :
  (2 * length (word_pairs words) = length words * (length words - 1))%nat.
Proof.
  induction words as [ | a words IH]; [reflexivity | ].
  cbn [word_pairs]. rewrite length_app, length_map. cbn [length]. nia.
Qed.

Lemma slice_to_firstn {A} (n : nat) (l : list A) : slice_to (Z.of_nat n) l = firstn n l.
Proof.
  unfold slice_to. destruct (Z.leb_spec 0 (Z.of_nat n)) as [_ | H]; [ | lia].
  rewrite Nat2Z.id. reflexivity.
Qed.

(** X20: the Facebook search terms of a query. The first term is always the
    query as it was given; the others are ordered pairs of its words; there
    are [min 5 (1 + n (n-1) / 2)] terms for a query of [n] words, so a query
    of at most one word gives the query alone; the two terms the Facebook
    collector uses are the query and its first two words. *)
Theorem X20_search_terms (query : string) :
  let terms := _generate_search_terms query in
  let n := length (Py.split query) in
  (exists rest, terms = query :: rest /\ Forall (ordered_pair_of (Py.split query)) rest)
  /\ length terms = Nat.min 5 (1 + n * (n - 1) / 2)
  /\ ((n <= 1)%nat -> terms = [query])
  /\ (forall a b more, Py.split query = a :: b :: more ->
      slice_to 2 terms = [query; a ++ " " ++ b]).
Proof.
  cbv zeta. unfold _generate_search_terms.
  change 5 with (Z.of_nat 5). rewrite slice_to_firstn.
  assert (Hlen : length (word_pairs (Py.split query))
                 = (length (Py.split query) * (length (Py.split query) - 1) / 2)%nat).
  { rewrite <- word_pairs_length, Nat.mul_comm, Nat.div_mul by discriminate. reflexivity. }
  assert (Hpairs : Forall (ordered_pair_of (Py.split query)) (word_pairs (Py.split query))).
  { apply List.Forall_forall. intros t Ht. apply word_pairs_spec. exact Ht. }
  destruct (Nat.ltb_spec 1 (length (Py.split query))) as [Hmany | Hfew].
  - split; [ | split; [ | split] ].
    + exists (firstn 4 (word_pairs (Py.split query))). split; [reflexivity | ].
      apply List.Forall_forall. intros t Ht.
      apply (proj1 (List.Forall_forall _ _) Hpairs).
      rewrite <- (firstn_skipn 4 (word_pairs (Py.split query))).
      apply in_or_app. left. exact Ht.
    + rewrite length_firstn, length_app, Hlen. reflexivity.
    + lia.
    + intros a b more Heq. rewrite Heq. reflexivity.
  - assert (Hnone : word_pairs (Py.split query) = []).
    { destruct (Py.split query) as [ | a [ | b more]]; [reflexivity | reflexivity | ].
      cbn [length] in Hfew. lia. }
    split; [ | split; [ | split] ].
    + exists []. split; [reflexivity | constructor].
    + rewrite <- Hlen, Hnone. reflexivity.
    + reflexivity.
    + intros a b more Heq. rewrite Heq in Hfew. cbn [length] in Hfew. lia.
Qed.

(** *** The words of [str.split()] *)


















Section ShortQuery.

Variable B : Browser.
Variable W : World.
Variable images_dir : string.


End ShortQuery.


(** ** Storage: set-up, download and read-back *)

Section Storage.

Variable W : World.
Variable images_dir : string.

(** What a call of [_download_image] that returns a path has done. *)
Lemma download_image_some (img_url platform session_id : string) (index : Z)
    (st : State) (path : string) :
  fst (_download_image W images_dir img_url platform session_id index st) = Some path ->
  exists response img,
    http_get W img_url = Some response
    /\ status_code response = 200%Z
    /\ path_join images_dir platform ∈ dirs st
    /\ pil_open W (content response) = Some img
    /\ size_ok img = true
    /\ path = stored_path W images_dir platform index response (ticks st)
    /\ snd (_download_image W images_dir img_url platform session_id index st)
       = {| dirs := dirs st; files := <[path := Bytes (content response)]> (files st);
            ticks := S (ticks st); extracted_images := extracted_images st |}.
Proof.
  unfold _download_image.
  destruct (http_get W img_url) as [response | ]; [ | discriminate].
  destruct (Z.eqb_spec (status_code response) 200) as [Hstatus | Hstatus]; [ | discriminate].
  unfold mbind, M_bind, mret, M_ret, read_time, write_file.
  cbn [dirs files ticks extracted_images].
  fold (stored_path W images_dir platform index response (ticks st)).
  destruct (decide (path_join images_dir platform ∈ dirs st)) as [Hdir | Hdir];
    [ | discriminate].
  unfold open_image. cbn [files]. rewrite lookup_insert_eq.
  destruct (pil_open W (content response)) as [img | ] eqn:Himg; [ | discriminate].
  destruct (size_ok img) eqn:Hok; [ | discriminate].
  cbn [fst snd]. intros [= <-]. exists response, img. auto 10.
Qed.


Lemma size_ok_floor (img : Image) : size_ok img = true -> meets_floor (img_size img).
Proof.
  unfold size_ok, meets_floor. intros H. apply andb_true_iff in H as [Hw Hh].
  apply Z.leb_le in Hw, Hh. split; assumption.
Qed.


(** X25: reading back what a download has stored. When [_download_image]
    returns a path, [_get_image_info] of that path answers with the size of
    the decoded body (at least 200 by 200), the number of bytes of the
    response and the format, and changes nothing. For a path where no file
    is stored the answer is size (0, 0), 0 bytes, format unknown. *)
Theorem X25_download_then_info (img_url platform session_id : string) (index : Z)
    (st : State) (path : string) :
  let result := _download_image W images_dir img_url platform session_id index st in
  (fst result = Some path ->
   exists response img,
     http_get W img_url = Some response
     /\ pil_open W (content response) = Some img
     /\ meets_floor (img_size img)
     /\ _get_image_info W path (snd result) = (info_of img (content response), snd result))
  /\ (fst result = None ->
      forall response,
        http_get W img_url = Some response ->
        files st !! stored_path W images_dir platform index response (ticks st) = None ->
        fst (_get_image_info W (stored_path W images_dir platform index response (ticks st))
               (snd result))
        = {| info_size := (0, 0); info_file_size := 0; info_format := "unknown" |}).
Proof.
  cbv zeta. split.
  - intros Hsome. apply download_image_some in Hsome
      as (response & img & Hget & _ & _ & Himg & Hok & _ & ->).
    exists response, img. split; [exact Hget | split; [exact Himg | split ] ].
    + apply size_ok_floor. exact Hok.
    + unfold _get_image_info, open_image. cbv beta iota zeta delta [mbind M_bind mret M_ret].
      cbn [files fst snd]. rewrite lookup_insert_eq, Himg. reflexivity.
  - intros Hnone response Hget Hfree. revert Hnone. unfold _download_image. rewrite Hget.
    assert (Hinfo : forall st', files st' !! stored_path W images_dir platform index response
                                  (ticks st) = None ->
              fst (_get_image_info W (stored_path W images_dir platform index response
                                        (ticks st)) st')
              = {| info_size := (0, 0); info_file_size := 0; info_format := "unknown" |}).
    { intros st' H. unfold _get_image_info, open_image.
      cbv beta iota zeta delta [mbind M_bind mret M_ret]. cbn [fst]. rewrite H. reflexivity. }
    destruct (status_code response =? 200)%Z; [ | intros _; apply Hinfo; exact Hfree].
    unfold mbind, M_bind, mret, M_ret, read_time, write_file.
    cbn [dirs files ticks extracted_images].
    fold (stored_path W images_dir platform index response (ticks st)).
    destruct (decide (path_join images_dir platform ∈ dirs st)) as [Hdir | Hdir];
      [ | intros _; apply Hinfo; exact Hfree].
    unfold open_image. cbn [files]. rewrite lookup_insert_eq.
    destruct (pil_open W (content response)) as [img | ]; [destruct (size_ok img) | ];
      try discriminate; intros _; apply Hinfo; unfold remove_file; cbn [snd files];
      apply lookup_delete_eq.
Qed.

End Storage.


(** ** Ranking an already ranked list *)

Lemma sorted_firstn (n : nat) (l : list ViralImage) :
  StronglySorted desc l -> StronglySorted desc (firstn n l).
Proof.
  intros H. rewrite <- (firstn_skipn n l) in H.
  apply StronglySorted_app_inv in H. tauto.
Qed.

Lemma sort_by_score_reverse_sorted_id (l : list ViralImage) :
  Forall score_is_number l -> StronglySorted desc l -> sort_by_score_reverse l = l.
Proof.
  intros Hnum Hsorted. symmetry.
  apply sort_by_score_reverse_unique; [exact Hnum | reflexivity | exact Hsorted | reflexivity].
Qed.

(** X24: on scores that are numbers, a list that is already in descending
    order is left as it is by the ranking sort, and ranking and truncating
    a second time changes nothing. *)
Theorem X24_ranking_is_idempotent (l : list ViralImage) :
  Forall score_is_number l ->
  (StronglySorted desc l -> sort_by_score_reverse l = l)
  /\ rank_and_truncate (rank_and_truncate l) = rank_and_truncate l.
Proof.
  intros Hnum. split; [apply sort_by_score_reverse_sorted_id; exact Hnum | ].
  rewrite !rank_and_truncate_firstn.
  assert (Hs : Forall score_is_number (sort_by_score_reverse l)).
  { apply List.Forall_forall. intros r Hr.
    apply (proj1 (List.Forall_forall _ _) Hnum).
    exact (Permutation_in _ (sort_by_score_reverse_perm l) Hr). }
  rewrite sort_by_score_reverse_sorted_id.
  - rewrite firstn_firstn. reflexivity.
  - apply List.Forall_forall. intros r Hr.
    apply (proj1 (List.Forall_forall _ _) Hs).
    rewrite <- (firstn_skipn 20 (sort_by_score_reverse l)). apply in_or_app. left. exact Hr.
  - apply sorted_firstn. apply sort_by_score_reverse_sorted. exact Hnum.
Qed.

Lemma X24_ranking_is_idempotent_witness :
  Forall score_is_number four_records
  /\ rank_and_truncate (rank_and_truncate four_records) = rank_and_truncate four_records.
Proof.
  assert (H : Forall score_is_number four_records) by (repeat constructor).
  split; [exact H | exact (proj2 (X24_ranking_is_idempotent four_records H))].
Defined.
